(** * A shallow embedding of [pa3.c]: TLB, two-level page table, frame
      reference counts, copy-on-write fork and process switch.

    Conventions of the embedding.

    - [unsigned int] values are [Z]; the two places where the source does
      arithmetic on them ([mapcounts[pfn]++], [mapcounts[pfn]--]) wrap at
      [2^32], and [(unsigned int)-1] is [UINT_MAX].
    - A C array [T a[N]] is a [list T] with [N] cells; a loop
      [for (i = 0; i < N; i++)] that visits every cell of such an array is a
      recursion over the list ([shaped] states the sizes, and [shaped_run]
      that every run from the empty state keeps them).  An access [a[e]]
      with a computed index is a list lookup that fails when the index is
      outside the array.
    - Every operation runs in the [option] monad: [None] stands for
      undefined behaviour of the C program (a null, dangling or wild pointer
      is dereferenced, or an array is indexed outside its bounds).
    - [malloc]ed objects live in stores addressed by [nat]: [procs] for
      [struct process] and [dirs] for [struct pte_directory].  An address is
      handed out once and never recycled, so a freed directory stays dead
      and every later use of a pointer to it is undefined.
    - [printf] calls are dropped. *)

From Stdlib Require Import ZArith Lia Bool.
From stdpp Require Import base option list.

Local Open Scope Z_scope.

Set Default Proof Using "Type".

(** ** Data model ([vm.h] is not part of the sources; the fields are the
       ones [pa3.c] reads and writes) *)

Record pte := mk_pte {
  pte_valid : bool;
  pte_rw : Z;
  pte_pfn : Z;
  pte_private : Z
}.

Record tlb_entry := mk_tlb {
  tlb_valid : bool;
  tlb_vpn : Z;
  tlb_rw : Z;
  tlb_pfn : Z
}.

(** [outer_ptes[i]] is [None] for [NULL] and [Some a] for a pointer to the
    directory block at address [a]. *)
Record process := mk_process {
  pid : Z;
  pagetable : list (option nat)
}.

(** [processes] is the ready list, head first, holding the addresses of the
    linked processes.  [current] is the address of the running process and
    [ptbr] the address of the process whose [pagetable] field it points
    to.  [dirs !! a] is [Some (Some d)] for a live directory, [Some None]
    for a freed one and [None] for an address never handed out. *)
Record state := mk_state {
  processes : list nat;
  current : nat;
  ptbr : nat;
  tlb : list tlb_entry;
  mapcounts : list Z;
  procs : list process;
  dirs : list (option (list pte))
}.

Definition UINT_MAX : Z := 2 ^ 32 - 1.

Definition wrap (z : Z) : Z := z mod 2 ^ 32.

Definition deref (ds : list (option (list pte))) (a : nat) : option (list pte) :=
  match ds !! a with
  | Some (Some d) => Some d
  | _ => None
  end.

Definition set_tlb (s : state) (t : list tlb_entry) : state :=
  mk_state (processes s) (current s) (ptbr s) t (mapcounts s) (procs s) (dirs s).

Definition set_mapcounts (s : state) (mc : list Z) : state :=
  mk_state (processes s) (current s) (ptbr s) (tlb s) mc (procs s) (dirs s).

Definition set_dirs (s : state) (ds : list (option (list pte))) : state :=
  mk_state (processes s) (current s) (ptbr s) (tlb s) (mapcounts s) (procs s) ds.

(** What a walk of a page table finds at a cell: a [NULL] slot, or the
    entry [e] in the directory at address [a]. *)
Inductive walk_result :=
  | Absent
  | Entry (a : nat) (e : pte).

(** [owner->pagetable.outer_ptes[i]->ptes[j]], as far as the walk is
    defined. *)
Definition cell (s : state) (owner i j : nat) : option walk_result :=
  pr ← procs s !! owner;
  slot ← pagetable pr !! i;
  match slot with
  | None => Some Absent
  | Some a =>
      d ← deref (dirs s) a;
      e ← d !! j;
      Some (Entry a e)
  end.

(** The operations the simulator invokes. *)
Inductive op :=
  | Lookup_tlb (vpn rw : Z)
  | Insert_tlb (vpn rw pfn : Z)
  | Alloc_page (vpn rw : Z)
  | Free_page (vpn : Z)
  | Handle_page_fault (vpn rw : Z)
  | Switch_process (p : Z).

(** The index of the first cell satisfying [p]: the loops that scan an array
    and stop at the first match. *)
Fixpoint first_index {A : Type} (p : A → bool) (l : list A) : option nat :=
  match l with
  | [] => None
  | x :: l' => if p x then Some 0%nat else S <$> first_index p l'
  end.

(** ** A small machine for concrete runs

    Two cells per directory ([PTES_PER_PAGE_SHIFT = 1], so VPNs 0..3), four
    page frames, four TLB cells, [ACCESS_READ = 1], [ACCESS_WRITE = 2].
    [malloc] returns blocks full of valid-looking garbage. *)

Definition demo_junk : nat → nat → pte := λ _ _, mk_pte true 3 7 3.

Definition demo_tlb_empty : list tlb_entry := replicate 4 (mk_tlb false 0 0 0).

(** The state the simulator starts in: one process, nothing mapped. *)
Definition demo_boot : state :=
  mk_state [] 0 0 demo_tlb_empty [0; 0; 0; 0] [mk_process 0 [None; None]] [].

(** A read of VPN 0 through frame 0 has been cached. *)
Definition demo_tlb_read0 : list tlb_entry :=
  mk_tlb true 0 1 0 :: replicate 3 (mk_tlb false 0 0 0).

(** VPN 0 is mapped read/write to frame 0 and a read of it is cached. *)
Definition demo_mapped0 : state :=
  mk_state [] 0 0 demo_tlb_read0 [1; 0; 0; 0]
           [mk_process 0 [Some 0%nat; None]]
           [Some [mk_pte true 3 0 0; mk_pte false 3 7 3]].

(** VPN 0 is mapped read-only to frame 0, with no backup. *)
Definition demo_readonly : state :=
  mk_state [] 0 0 demo_tlb_empty [1; 0; 0; 0]
           [mk_process 0 [Some 0%nat; None]]
           [Some [mk_pte true 1 0 0; mk_pte false 3 7 3]].

(** VPNs 0 and 1 on frames 0 and 1, read-only, with the rights [3] they
    had before the fork as backup. *)
Definition demo_shared_dir : list pte := [mk_pte true 1 0 3; mk_pte true 1 1 3].

(** Process 0 mapped VPNs 0 and 1 read/write and forked process 1, which
    now runs and has read VPN 0: each page table holds the two entries in a
    directory of its own, and frames 0 and 1 have count 2. *)
Definition demo_forked : state :=
  mk_state [0%nat] 1 1 demo_tlb_read0 [2; 2; 0; 0]
           [mk_process 0 [Some 0%nat; None]; mk_process 1 [Some 1%nat; None]]
           [Some demo_shared_dir; Some demo_shared_dir].

(** The calls that lead from [demo_boot] to [demo_forked]. *)
Definition demo_fork_calls : list op :=
  [Alloc_page 0 3; Alloc_page 1 3; Switch_process 1; Insert_tlb 0 1 0].

(** The same calls, and then the child frees VPN 0. *)
Definition demo_free_calls : list op := demo_fork_calls ++ [Free_page 0].

(** After the fork the child writes to VPN 0, which gives it frame 2,
    reads VPN 1 and frees VPN 0 again. *)
Definition demo_cow_calls : list op :=
  demo_fork_calls ++ [Handle_page_fault 0 2; Insert_tlb 1 1 1; Free_page 0].

(** Process 0 maps all four VPNs, which takes all four frames, and forks;
    the child reads VPN 0 and then raises a write fault on it. *)
Definition demo_full_calls : list op :=
  [Alloc_page 0 3; Alloc_page 1 3; Alloc_page 2 3; Alloc_page 3 3;
   Switch_process 1; Insert_tlb 0 1 0; Handle_page_fault 0 2].

(** Process 0 has mapped VPNs 0 and 1 read/write, and nothing else has
    happened. *)
Definition demo_mapped01 : state :=
  mk_state [] 0 0 demo_tlb_empty [1; 1; 0; 0]
           [mk_process 0 [Some 0%nat; None]]
           [Some [mk_pte true 3 0 0; mk_pte true 3 1 0]].

(** Process 0 forked process 1 with nothing mapped; process 1 runs. *)
Definition demo_two : state :=
  mk_state [0%nat] 1 1 demo_tlb_empty [0; 0; 0; 0]
           [mk_process 0 [None; None]; mk_process 1 [None; None]] [].

Section VM.

(** Fixed system parameters, declared in the absent [vm.h]. *)
Variable PTES_PER_PAGE_SHIFT : nat.
Variable NR_PAGEFRAMES : nat.
Variable NR_TLB_ENTRIES : nat.
Variable ACCESS_READ ACCESS_WRITE : Z.

(** The indeterminate contents of a block returned by [malloc]:
    [malloc_junk a j] is what cell [j] of the block at address [a] holds
    before it is written. *)
Variable malloc_junk : nat → nat → pte.

(** Modelled from the spec: [NR_PTES_PER_PAGE], a macro of the absent
    [vm.h].  A page directory is "a fixed-size array of PTEs (one per
    low-order bits of the VPN)", and the source takes the low-order bits
    with [vpn % (1 << PTES_PER_PAGE_SHIFT)]. *)
Definition NR_PTES_PER_PAGE : nat := Z.to_nat (Z.shiftl 1 (Z.of_nat PTES_PER_PAGE_SHIFT)).

(** [int vpn1 = vpn >> PTES_PER_PAGE_SHIFT] *)
Definition vpn1 (vpn : Z) : nat := Z.to_nat (Z.shiftr vpn (Z.of_nat PTES_PER_PAGE_SHIFT)).

(** [int vpn2 = vpn % (1 << PTES_PER_PAGE_SHIFT)] *)
Definition vpn2 (vpn : Z) : nat := Z.to_nat (vpn mod Z.shiftl 1 (Z.of_nat PTES_PER_PAGE_SHIFT)).

(** ** [lookup_tlb] *)

(** [tlb[i].vpn == vpn && tlb[i].rw & rw == rw && tlb[i].valid].  In C [==]
    binds tighter than [&], and [&] tighter than [&&]: the middle operand
    is [tlb[i].rw & (rw == rw)]. *)
Definition tlb_hit (vpn rw : Z) (e : tlb_entry) : bool :=
  (tlb_vpn e =? vpn)
  && negb (Z.land (tlb_rw e) (Z.b2z (rw =? rw)) =? 0)
  && tlb_valid e.

Fixpoint lookup_tlb_from (vpn rw : Z) (t : list tlb_entry) : option Z :=
  match t with
  | [] => None
  | e :: t' => if tlb_hit vpn rw e then Some (tlb_pfn e) else lookup_tlb_from vpn rw t'
  end.

(** [Some pfn]: the function returns [true] and stores [pfn] through its
    third argument; [None]: it returns [false].  It writes nothing else. *)
Definition lookup_tlb (vpn rw : Z) (s : state) : option Z :=
  lookup_tlb_from vpn rw (tlb s).

(** ** [insert_tlb] *)

(** The first loop has no bound: when every cell is valid it runs off the
    array. *)
Definition insert_tlb (vpn rw pfn : Z) (s : state) : option state :=
  free_idx ← first_index (λ e, negb (tlb_valid e)) (tlb s);
  let target_tlb_idx :=
    default free_idx (first_index (λ e, tlb_valid e && (tlb_vpn e =? vpn)) (tlb s)) in
  Some (set_tlb s (<[target_tlb_idx := mk_tlb true vpn rw pfn]> (tlb s))).

(** ** [alloc_page] *)

(** The block [malloc] returns at address [a], after the loop that clears
    every [valid] flag. *)
Definition fresh_directory (a : nat) : list pte :=
  (λ j, mk_pte false (pte_rw (malloc_junk a j)) (pte_pfn (malloc_junk a j))
               (pte_private (malloc_junk a j))) <$> seq 0 NR_PTES_PER_PAGE.

(** [target_pte->valid = true; target_pte->rw = rw; ...] on cell [j] of the
    directory at [a]. *)
Definition write_pte (ds : list (option (list pte))) (a j : nat) (e : pte)
  : option (list (option (list pte))) :=
  d ← deref ds a;
  _ ← d !! j;
  Some (<[a := Some (<[j := e]> d)]> ds).

Definition alloc_page (vpn rw : Z) (s : state) : option (Z * state) :=
  match first_index (λ c, c =? 0) (mapcounts s) with
  | None => Some (UINT_MAX, s)
  | Some pfn =>
      c ← mapcounts s !! pfn;
      let mc := <[pfn := wrap (c + 1)]> (mapcounts s) in
      pr ← procs s !! ptbr s;
      slot ← pagetable pr !! vpn1 vpn;
      let '(a, prs, ds) :=
        match slot with
        | None =>
            let a := length (dirs s) in
            (a,
             <[ptbr s := mk_process (pid pr) (<[vpn1 vpn := Some a]> (pagetable pr))]> (procs s),
             dirs s ++ [Some (fresh_directory a)])
        | Some a => (a, procs s, dirs s)
        end in
      ds' ← write_pte ds a (vpn2 vpn) (mk_pte true rw (Z.of_nat pfn) 0);
      Some (Z.of_nat pfn,
            mk_state (processes s) (current s) (ptbr s) (tlb s) mc prs ds')
  end.

(** ** [free_page] *)

(** The directory is handed back to [free] once no cell is valid, but the
    slot [outer_ptes[vpn1]] keeps the pointer. *)
Definition free_page (vpn : Z) (s : state) : option state :=
  pr ← procs s !! ptbr s;
  slot ← pagetable pr !! vpn1 vpn;
  a ← slot;
  d ← deref (dirs s) a;
  target_pte ← d !! vpn2 vpn;
  let pfn := Z.to_nat (pte_pfn target_pte) in
  c ← mapcounts s !! pfn;
  let mc := <[pfn := wrap (c - 1)]> (mapcounts s) in
  let d' := <[vpn2 vpn := mk_pte false (pte_rw target_pte) (pte_pfn target_pte)
                                  (pte_private target_pte)]> d in
  let is_ptes_empty := forallb (λ e, negb (pte_valid e)) d' in
  let ds := <[a := if is_ptes_empty then None else Some d']> (dirs s) in
  c' ← mc !! pfn;
  let t := (λ e, if (tlb_vpn e =? vpn) && (c' =? 0)
                 then mk_tlb false (tlb_vpn e) (tlb_rw e) (tlb_pfn e)
                 else e) <$> tlb s in
  Some (mk_state (processes s) (current s) (ptbr s) t mc (procs s) ds).

(** ** [handle_page_fault] *)

Definition tlb_set_pfn (vpn pfn : Z) (e : tlb_entry) : tlb_entry :=
  if tlb_valid e && (tlb_vpn e =? vpn)
  then mk_tlb (tlb_valid e) (tlb_vpn e) (tlb_rw e) pfn
  else e.

Definition tlb_set_rw (vpn rw : Z) (e : tlb_entry) : tlb_entry :=
  if tlb_valid e && (tlb_vpn e =? vpn)
  then mk_tlb (tlb_valid e) (tlb_vpn e) rw (tlb_pfn e)
  else e.

(** [!(pte->rw & rw) && pte->private & rw] *)
Definition cow_fault (e : pte) (rw : Z) : bool :=
  (Z.land (pte_rw e) rw =? 0) && negb (Z.land (pte_private e) rw =? 0).

Definition handle_page_fault (vpn rw : Z) (s : state) : option (bool * state) :=
  pr ← procs s !! ptbr s;
  slot ← pagetable pr !! vpn1 vpn;
  match slot with
  | None => Some (true, s)
  | Some a =>
      d ← deref (dirs s) a;
      e ← d !! vpn2 vpn;
      if negb (pte_valid e) then Some (true, s)
      else if cow_fault e rw then
        let e1 := mk_pte (pte_valid e) (pte_private e) (pte_pfn e) 0 in
        let s1 := set_dirs s (<[a := Some (<[vpn2 vpn := e1]> d)]> (dirs s)) in
        c ← mapcounts s1 !! Z.to_nat (pte_pfn e1);
        s3 ← (if 1 <? c then
                let s2 := set_mapcounts s1
                            (<[Z.to_nat (pte_pfn e1) := wrap (c - 1)]> (mapcounts s1)) in
                '(pfn, s3) ← alloc_page vpn (pte_rw e1) s2;
                Some (set_tlb s3 (tlb_set_pfn vpn pfn <$> tlb s3))
              else Some s1);
        Some (true, set_tlb s3 (tlb_set_rw vpn rw <$> tlb s3))
      else Some (false, s)
  end.

(** ** [switch_process] *)

(** Modelled from the spec: [list_for_each_entry] of the absent
    [list_head.h], visiting the ready list from its head; the loop body of
    the source stops at the first process whose [pid] matches.  Each visited
    node is dereferenced. *)
Fixpoint find_process (prs : list process) (p : Z) (ready : list nat) : option (option nat) :=
  match ready with
  | [] => Some None
  | pos :: ready' =>
      pr ← prs !! pos;
      if pid pr =? p then Some (Some pos) else find_process prs p ready'
  end.

(** The body of the inner copy loop on one cell of the parent's directory:
    [if (rw & ACCESS_WRITE) { private = rw; rw = ACCESS_READ; }]. *)
Definition cow_protect (e : pte) : pte :=
  if negb (Z.land (pte_rw e) ACCESS_WRITE =? 0)
  then mk_pte (pte_valid e) ACCESS_READ (pte_pfn e) (pte_rw e)
  else e.

(** The "copy pagetable" loop over the slots of [current->pagetable]: the
    parent's directory is rewritten in place, cell by cell, and each cell is
    then copied into a block [malloc]ed for the child. *)
Fixpoint copy_pagetable (slots : list (option nat)) (ds : list (option (list pte)))
  : option (list (option nat) * list (option (list pte))) :=
  match slots with
  | [] => Some ([], ds)
  | None :: slots' =>
      '(child, ds') ← copy_pagetable slots' ds;
      Some (None :: child, ds')
  | Some a :: slots' =>
      d ← deref ds a;
      let d' := cow_protect <$> d in
      let b := length ds in
      '(child, ds') ← copy_pagetable slots' (<[a := Some d']> ds ++ [Some d']);
      Some (Some b :: child, ds')
  end.

(** The "modify mapcounts" loops: [mapcounts[ptes[j].pfn]++] for each valid
    cell of each directory of the child. *)
Fixpoint count_directory (d : list pte) (mc : list Z) : option (list Z) :=
  match d with
  | [] => Some mc
  | e :: d' =>
      if pte_valid e then
        c ← mc !! Z.to_nat (pte_pfn e);
        count_directory d' (<[Z.to_nat (pte_pfn e) := wrap (c + 1)]> mc)
      else count_directory d' mc
  end.

Fixpoint count_pagetable (slots : list (option nat)) (ds : list (option (list pte)))
    (mc : list Z) : option (list Z) :=
  match slots with
  | [] => Some mc
  | None :: slots' => count_pagetable slots' ds mc
  | Some a :: slots' =>
      d ← deref ds a;
      mc' ← count_directory d mc;
      count_pagetable slots' ds mc'
  end.

(** The fork branch: returns the address of the new process. *)
Definition fork (p : Z) (s : state) : option (nat * state) :=
  cur ← procs s !! current s;
  '(child, ds) ← copy_pagetable (pagetable cur) (dirs s);
  let next_process := length (procs s) in
  mc ← count_pagetable child ds (mapcounts s);
  Some (next_process,
        mk_state (processes s) (current s) (ptbr s) (tlb s) mc
                 (procs s ++ [mk_process p child]) ds).

(** Modelled from the spec: [list_add_tail] of the absent [list_head.h]
    pushes the node "onto the tail of the ready list". *)
Definition list_add_tail (node : nat) (ready : list nat) : list nat := ready ++ [node].

Definition tlb_flush (e : tlb_entry) : tlb_entry :=
  mk_tlb false (tlb_vpn e) (tlb_rw e) (tlb_pfn e).

Definition switch_process (p : Z) (s : state) : option state :=
  found ← find_process (procs s) p (processes s);
  '(next_process, s1) ← match found with
                        | Some n => Some (n, s)
                        | None => fork p s
                        end;
  Some (mk_state (list_add_tail (current s1) (processes s1)) next_process next_process
                 (tlb_flush <$> tlb s1) (mapcounts s1) (procs s1) (dirs s1)).

(** ** Vocabulary of the statements *)

(** The page walk of the source for [vpn] in the page table of [owner]. *)
Definition walk (s : state) (owner : nat) (vpn : Z) : option walk_result :=
  cell s owner (vpn1 vpn) (vpn2 vpn).

(** The entry for [vpn] is not mapped: its slot is [NULL] or its cell is not
    valid. *)
Definition unmapped (s : state) (vpn : Z) : Prop :=
  walk s (ptbr s) vpn = Some Absent
  ∨ ∃ a e, walk s (ptbr s) vpn = Some (Entry a e) ∧ pte_valid e = false.

(** [f] is the lowest-numbered frame whose reference count is zero. *)
Definition lowest_free (mc : list Z) (f : nat) : Prop :=
  mc !! f = Some 0 ∧ ∀ g, (g < f)%nat → mc !! g ≠ Some 0.


(** The number of valid cells that map frame [f], in a directory and in a
    whole page table. *)
Fixpoint refs_in_directory (f : nat) (d : list pte) : nat :=
  match d with
  | [] => 0
  | e :: d' =>
      (if pte_valid e && (Z.to_nat (pte_pfn e) =? f)%nat then 1 else 0)
      + refs_in_directory f d'
  end%nat.

Fixpoint refs_in_pagetable (f : nat) (slots : list (option nat))
    (ds : list (option (list pte))) : nat :=
  match slots with
  | [] => 0
  | None :: slots' => refs_in_pagetable f slots' ds
  | Some a :: slots' =>
      default 0 (refs_in_directory f <$> deref ds a) + refs_in_pagetable f slots' ds
  end%nat.

(** [n] times [mapcounts[f]++]. *)
Definition bump (n : nat) (c : Z) : Z := Nat.iter n (λ x, wrap (x + 1)) c.

(** Modelled from the spec: [translate] of section 4.3, the page-table walk
    that the framework performs between a TLB miss and a page fault (it is
    not a function of [pa3.c]).  The walk faults when the directory slot is
    absent, when the entry is not valid and when the entry's rights do not
    contain the requested ones; otherwise it yields the entry's frame. *)
Definition translate (vpn rw : Z) (s : state) : option Z :=
  match walk s (ptbr s) vpn with
  | Some (Entry _ e) =>
      if pte_valid e && (Z.land (pte_rw e) rw =? rw) then Some (pte_pfn e) else None
  | _ => None
  end.

(** TLB/page-table consistency: what a valid TLB entry caches, with rights
    [R], the page table grants for every rights mask contained in [R]. *)
Definition tlb_consistent (s : state) : Prop :=
  ∀ i t, tlb s !! i = Some t → tlb_valid t = true →
    ∀ rw, Z.land (tlb_rw t) rw = rw → translate (tlb_vpn t) rw s = Some (tlb_pfn t).

(** The page table of the running process backs the TLB entry [t]: the
    entry for its VPN is valid, maps the cached frame and grants the cached
    rights. *)
Definition backed (s : state) (t : tlb_entry) : Prop :=
  ∃ a e, walk s (ptbr s) (tlb_vpn t) = Some (Entry a e)
         ∧ pte_valid e = true
         ∧ Z.land (pte_rw e) (tlb_rw t) = tlb_rw t
         ∧ pte_pfn e = tlb_pfn t.

(** Modelled from the spec: the empty state the simulator starts in (it is
    set up by the framework, not by [pa3.c]): one process, no directory, no
    frame in use, nothing cached. *)
Definition boot : state :=
  mk_state [] 0 0
           (replicate NR_TLB_ENTRIES (mk_tlb false 0 0 0))
           (replicate NR_PAGEFRAMES 0)
           [mk_process 0 (replicate NR_PTES_PER_PAGE None)]
           [].

Definition exec (o : op) (s : state) : option state :=
  match o with
  | Lookup_tlb vpn rw => Some s
  | Insert_tlb vpn rw pfn => insert_tlb vpn rw pfn s
  | Alloc_page vpn rw => snd <$> alloc_page vpn rw s
  | Free_page vpn => free_page vpn s
  | Handle_page_fault vpn rw => snd <$> handle_page_fault vpn rw s
  | Switch_process p => switch_process p s
  end.

Fixpoint run (os : list op) (s : state) : option state :=
  match os with
  | [] => Some s
  | o :: os' => s' ← exec o s; run os' s'
  end.

(** The calls of a simulator that keeps to the contracts of the
    operations: it caches a translation only when the page table grants
    it, allocates only a page that is not mapped, frees only a mapped page
    whose frame no other entry maps or for which nothing is cached, and
    raises a fault for a single access right, with a free frame at hand
    when the fault needs a copy. *)
Definition permitted (o : op) (s : state) : Prop :=
  match o with
  | Lookup_tlb vpn rw => True
  | Insert_tlb vpn rw pfn => 0 ≤ vpn ∧ translate vpn rw s = Some pfn
  | Alloc_page vpn rw => unmapped s vpn
  | Free_page vpn =>
      0 ≤ vpn
      ∧ ∃ a e, walk s (ptbr s) vpn = Some (Entry a e) ∧ pte_valid e = true
               ∧ (mapcounts s !! Z.to_nat (pte_pfn e) = Some 1
                  ∨ ∀ i t, tlb s !! i = Some t → tlb_valid t = true → tlb_vpn t ≠ vpn)
  | Handle_page_fault vpn rw =>
      0 ≤ vpn
      ∧ (∃ k, 0 ≤ k ∧ rw = 2 ^ k)
      ∧ ∀ a e c, walk s (ptbr s) vpn = Some (Entry a e) → pte_valid e = true →
                 cow_fault e rw = true →
                 mapcounts s !! Z.to_nat (pte_pfn e) = Some c → 1 < c →
                 ∃ f, mapcounts s !! f = Some 0
  | Switch_process p => True
  end.

(** Every call of [os], run from [s], is permitted in the state it is made
    in. *)
Fixpoint permitted_run (os : list op) (s : state) : Prop :=
  match os with
  | [] => True
  | o :: os' =>
      permitted o s
      ∧ match exec o s with
        | Some s' => permitted_run os' s'
        | None => False
        end
  end.

Inductive reachable : state → Prop :=
  | reachable_boot : reachable boot
  | reachable_step o s s' :
      reachable s → permitted o s → exec o s = Some s' → reachable s'.

(** Every directory pointer of every page table was handed out by
    [malloc]. *)
Definition dirs_allocated (s : state) : Prop :=
  ∀ p pr i a, procs s !! p = Some pr → pagetable pr !! i = Some (Some a) →
    (a < length (dirs s))%nat.

(** No page table holds the same directory in two slots. *)
Definition dirs_separate (s : state) : Prop :=
  ∀ p pr i j a, procs s !! p = Some pr →
    pagetable pr !! i = Some (Some a) → pagetable pr !! j = Some (Some a) → i = j.

(** The VPN of a valid TLB entry is an unsigned number. *)
Definition tlb_unsigned (s : state) : Prop :=
  ∀ i t, tlb s !! i = Some t → tlb_valid t = true → 0 ≤ tlb_vpn t.

(** The arrays have the sizes their C declarations give them, so that a
    recursion over one of the lists visits the cells that the bounded loop
    of the source visits. *)
Definition shaped (s : state) : Prop :=
  length (tlb s) = NR_TLB_ENTRIES
  ∧ length (mapcounts s) = NR_PAGEFRAMES
  ∧ (∀ p pr, procs s !! p = Some pr → length (pagetable pr) = NR_PTES_PER_PAGE)
  ∧ (∀ a d, deref (dirs s) a = Some d → length d = NR_PTES_PER_PAGE).

(** What the reachable states have in common. *)
Definition coherent (s : state) : Prop :=
  (∀ i t, tlb s !! i = Some t → tlb_valid t = true → backed s t)
  ∧ dirs_allocated s ∧ dirs_separate s ∧ tlb_unsigned s.

(** ** Vocabulary of the further results *)

(** The TLB holds at most one valid entry for a VPN. *)
Definition tlb_unique (t : list tlb_entry) : Prop :=
  ∀ i j ei ej, t !! i = Some ei → t !! j = Some ej →
    tlb_valid ei = true → tlb_valid ej = true → tlb_vpn ei = tlb_vpn ej → i = j.

(** A directory is held by one slot of one page table. *)
Definition dirs_private (s : state) : Prop :=
  ∀ p q prp prq i j a, procs s !! p = Some prp → procs s !! q = Some prq →
    pagetable prp !! i = Some (Some a) → pagetable prq !! j = Some (Some a) →
    p = q ∧ i = j.

(** The number of valid entries, over the page tables of all processes,
    that map frame [f]. *)
Fixpoint refs_in_procs (f : nat) (prs : list process) (ds : list (option (list pte))) : nat :=
  match prs with
  | [] => 0
  | pr :: prs' => refs_in_pagetable f (pagetable pr) ds + refs_in_procs f prs' ds
  end%nat.

Definition frame_refs (f : nat) (s : state) : nat := refs_in_procs f (procs s) (dirs s).

(** Every reference count is the number of valid entries that map the
    frame, as far as an [unsigned int] can hold it. *)
Definition conserved (s : state) : Prop :=
  ∀ f c, mapcounts s !! f = Some c → c = wrap (Z.of_nat (frame_refs f s)).

(** The running process's page table is the one [ptbr] points to, every
    directory pointer was handed out by [malloc], and no directory is held
    twice, be it by two processes or by two slots of one. *)
Definition owned (s : state) : Prop :=
  ptbr s = current s ∧ dirs_allocated s ∧ dirs_private s.

(** What one entry, and one block of the directory store, add to the
    references of frame [f]. *)
Definition entry_ref (f : nat) (e : pte) : nat :=
  if pte_valid e && (Z.to_nat (pte_pfn e) =? f)%nat then 1%nat else 0%nat.

Definition block_refs (f : nat) (o : option (list pte)) : nat :=
  default 0%nat (refs_in_directory f <$> o).

(** ** Scanning loops *)

Lemma first_index_Some {A} (p : A → bool) l i :
  first_index p l = Some i →
  ∃ x, l !! i = Some x ∧ p x = true ∧ ∀ j y, (j < i)%nat → l !! j = Some y → p y = false.
Proof.
  revert i. induction l as [|x l IH]; intros i Hi; simpl in Hi; [done|].
  destruct (p x) eqn:Hpx.
  - injection Hi as <-. exists x. split_and!; [done..|]. intros j y Hj. lia.
  - destruct (first_index p l) as [i'|]; simpl in Hi; [|done].
    injection Hi as <-. destruct (IH i' eq_refl) as (y & Hy & Hpy & Hlt).
    exists y. split_and!; [done..|].
    intros [|j] z Hj Hz; simpl in Hz; [congruence|]. apply (Hlt j); [lia|done].
Qed.

Lemma first_index_None {A} (p : A → bool) l :
  first_index p l = None → ∀ j y, l !! j = Some y → p y = false.
Proof.
  induction l as [|x l IH]; intros Hn j y Hy; simpl in *; [done|].
  destruct (p x) eqn:Hpx; [done|].
  destruct (first_index p l); [done|].
  destruct j as [|j]; simpl in Hy; [congruence|]. by eapply IH.
Qed.

Lemma first_index_lowest {A} (p : A → bool) l i x :
  l !! i = Some x → p x = true →
  (∀ j y, (j < i)%nat → l !! j = Some y → p y = false) →
  first_index p l = Some i.
Proof.
  intros Hx Hpx Hlt.
  destruct (first_index p l) as [k|] eqn:Hk.
  - destruct (first_index_Some _ _ _ Hk) as (y & Hy & Hpy & Hlow).
    destruct (Nat.lt_trichotomy k i) as [?|[->|?]]; [|done|].
    + rewrite (Hlt k y) in Hpy; done.
    + rewrite (Hlow i x) in Hpx; done.
  - rewrite (first_index_None _ _ Hk i x) in Hpx; done.
Qed.

Lemma first_free_lowest mc f :
  lowest_free mc f → first_index (λ c, c =? 0) mc = Some f.
Proof.
  intros [Hf Hlow]. eapply first_index_lowest; [done|done|].
  intros j y Hj Hy. apply Z.eqb_neq. intros ->. by apply (Hlow j).
Qed.


(** ** Splitting a VPN *)

Lemma shiftl_1_pos : 0 < Z.shiftl 1 (Z.of_nat PTES_PER_PAGE_SHIFT).
Proof. rewrite Z.shiftl_1_l. apply Z.pow_pos_nonneg; lia. Qed.

Lemma vpn2_lt vpn : (vpn2 vpn < NR_PTES_PER_PAGE)%nat.
Proof.
  unfold vpn2, NR_PTES_PER_PAGE. pose proof shiftl_1_pos as Hpos.
  pose proof (Z.mod_pos_bound vpn _ Hpos). apply Z2Nat.inj_lt; lia.
Qed.

Lemma vpn_split_inj v v' :
  0 ≤ v → 0 ≤ v' → vpn1 v = vpn1 v' → vpn2 v = vpn2 v' → v = v'.
Proof.
  unfold vpn1, vpn2. intros Hv Hv' H1 H2. pose proof shiftl_1_pos as Hpos.
  rewrite !Z.shiftr_div_pow2 in H1 by lia.
  rewrite Z.shiftl_1_l in *.
  set (m := 2 ^ Z.of_nat PTES_PER_PAGE_SHIFT) in *.
  pose proof (Z.mod_pos_bound v m Hpos). pose proof (Z.mod_pos_bound v' m Hpos).
  pose proof (Z.div_pos v m Hv Hpos). pose proof (Z.div_pos v' m Hv' Hpos).
  apply Z2Nat.inj in H1; [|lia..]. apply Z2Nat.inj in H2; [|lia..].
  rewrite (Z.div_mod v m), (Z.div_mod v' m) by lia. congruence.
Qed.

Lemma fresh_directory_length a : length (fresh_directory a) = NR_PTES_PER_PAGE.
Proof. unfold fresh_directory. by rewrite length_fmap, length_seq. Qed.

Lemma fresh_directory_invalid a j e :
  fresh_directory a !! j = Some e → pte_valid e = false.
Proof.
  unfold fresh_directory. rewrite list_lookup_fmap.
  destruct (seq 0 NR_PTES_PER_PAGE !! j); simpl; [|done]. by intros [= <-].
Qed.

Lemma deref_Some ds a d : deref ds a = Some d ↔ ds !! a = Some (Some d).
Proof. unfold deref. destruct (ds !! a) as [[d'|]|]; split; intros Heq; by simplify_eq. Qed.

Lemma deref_lt ds a d : deref ds a = Some d → (a < length ds)%nat.
Proof. rewrite deref_Some. apply lookup_lt_Some. Qed.

Lemma deref_insert_eq ds a o :
  (a < length ds)%nat → deref (<[a := o]> ds) a = o.
Proof. intros Ha. unfold deref. rewrite list_lookup_insert_eq by done. by destruct o. Qed.

Lemma deref_insert_ne ds a b o :
  a ≠ b → deref (<[a := o]> ds) b = deref ds b.
Proof. intros Hne. unfold deref. by rewrite list_lookup_insert_ne. Qed.

Lemma deref_app_l ds ds' a :
  (a < length ds)%nat → deref (ds ++ ds') a = deref ds a.
Proof. intros Ha. unfold deref. by rewrite lookup_app_l. Qed.

Lemma wrap_succ_0 : wrap (0 + 1) = 1.
Proof. reflexivity. Qed.

(** ** Page walks *)

Lemma cell_Entry_inv s owner i j a e :
  cell s owner i j = Some (Entry a e) →
  ∃ pr d, procs s !! owner = Some pr ∧ pagetable pr !! i = Some (Some a)
          ∧ deref (dirs s) a = Some d ∧ d !! j = Some e.
Proof.
  unfold cell. intros Hw.
  destruct (procs s !! owner) as [pr|]; simpl in Hw; [|done].
  destruct (pagetable pr !! i) as [[a'|]|] eqn:Hslot; simpl in Hw; [|done..].
  destruct (deref (dirs s) a') as [d|] eqn:Hd; simpl in Hw; [|done].
  destruct (d !! j) as [e'|] eqn:He; simpl in Hw; [|done].
  simplify_eq. by exists pr, d.
Qed.

Lemma cell_Absent_inv s owner i j :
  cell s owner i j = Some Absent →
  ∃ pr, procs s !! owner = Some pr ∧ pagetable pr !! i = Some None.
Proof.
  unfold cell. intros Hw.
  destruct (procs s !! owner) as [pr|]; simpl in Hw; [|done].
  destruct (pagetable pr !! i) as [[a'|]|] eqn:Hslot; simpl in Hw; [|by exists pr|done].
  destruct (deref (dirs s) a') as [d|]; simpl in Hw; [|done].
  destruct (d !! j) as [e'|]; simpl in Hw; done.
Qed.

Lemma cell_Entry_intro s owner i j pr a d e :
  procs s !! owner = Some pr → pagetable pr !! i = Some (Some a) →
  deref (dirs s) a = Some d → d !! j = Some e →
  cell s owner i j = Some (Entry a e).
Proof.
  intros Hpr Hslot Hd He. unfold cell.
  rewrite Hpr. simpl. rewrite Hslot. simpl. rewrite Hd. simpl. by rewrite He.
Qed.

Lemma walk_Entry_inv s owner vpn a e :
  walk s owner vpn = Some (Entry a e) →
  ∃ pr d, procs s !! owner = Some pr ∧ pagetable pr !! vpn1 vpn = Some (Some a)
          ∧ deref (dirs s) a = Some d ∧ d !! vpn2 vpn = Some e.
Proof. apply cell_Entry_inv. Qed.

(** ** The loops of the fork branch *)

Lemma cow_protect_valid e : pte_valid (cow_protect e) = pte_valid e.
Proof. unfold cow_protect. by destruct (negb _). Qed.

Lemma cow_protect_pfn e : pte_pfn (cow_protect e) = pte_pfn e.
Proof. unfold cow_protect. by destruct (negb _). Qed.





Lemma copy_pagetable_length slots : ∀ ds child ds',
  copy_pagetable slots ds = Some (child, ds') → length child = length slots.
Proof.
  induction slots as [|[a|] slots IH]; intros ds child ds' Hcopy; simpl in Hcopy.
  - by simplify_eq.
  - destruct (deref ds a); simpl in Hcopy; [|done].
    destruct (copy_pagetable slots _) as [[c0 d0]|] eqn:Hr; simpl in Hcopy; [|done].
    injection Hcopy as <- <-. simpl. f_equal. by eapply IH.
  - destruct (copy_pagetable slots _) as [[c0 d0]|] eqn:Hr; simpl in Hcopy; [|done].
    injection Hcopy as <- <-. simpl. f_equal. by eapply IH.
Qed.

(** The child's slots mirror the parent's; its directories are fresh blocks,
    one per slot. *)
Lemma copy_pagetable_shape slots : ∀ ds child ds',
  copy_pagetable slots ds = Some (child, ds') →
  (length ds ≤ length ds')%nat
  ∧ (∀ i, slots !! i = Some None → child !! i = Some None)
  ∧ (∀ i a, slots !! i = Some (Some a) → ∃ b, child !! i = Some (Some b))
  ∧ (∀ i b, child !! i = Some (Some b) → (length ds ≤ b < length ds')%nat)
  ∧ (∀ i j b, child !! i = Some (Some b) → child !! j = Some (Some b) → i = j).
Proof.
  induction slots as [|[a|] slots IH]; intros ds child ds' Hcopy; simpl in Hcopy.
  - simplify_eq. split_and!; [lia|done..].
  - destruct (deref ds a) as [d|] eqn:Hd; simpl in Hcopy; [|done].
    destruct (copy_pagetable slots _) as [[child0 ds0]|] eqn:Hrest; simpl in Hcopy; [|done].
    simplify_eq.
    destruct (IH _ _ _ Hrest) as (Hlen & Hnone & Hsome & Hfresh & Hinj).
    rewrite length_app, length_insert in Hlen, Hfresh. simpl in Hlen, Hfresh.
    split_and!.
    + lia.
    + intros [|i] Hi; simpl in *; [done|]. by apply Hnone.
    + intros [|i] a' Hi; simpl in *; [by eexists|]. by eapply Hsome.
    + intros [|i] b Hi; simpl in *.
      * simplify_eq. lia.
      * specialize (Hfresh i b Hi). lia.
    + intros [|i] [|j] b Hi Hj; simpl in *; simplify_eq; try done.
      * specialize (Hfresh j _ Hj). lia.
      * specialize (Hfresh i _ Hi). lia.
      * f_equal. by eapply Hinj.
  - destruct (copy_pagetable slots ds) as [[child0 ds0]|] eqn:Hrest; simpl in Hcopy; [|done].
    simplify_eq.
    destruct (IH _ _ _ Hrest) as (Hlen & Hnone & Hsome & Hfresh & Hinj).
    split_and!.
    + done.
    + intros [|i] Hi; simpl in *; [done|]. by apply Hnone.
    + intros [|i] a' Hi; simpl in *; [done|]. by eapply Hsome.
    + intros [|i] b Hi; simpl in *; [done|]. by eapply Hfresh.
    + intros [|i] [|j] b Hi Hj; simpl in *; simplify_eq; try done.
      f_equal. by eapply Hinj.
Qed.



Lemma bump_succ n c : bump (S n) c = bump n (wrap (c + 1)).
Proof.
  unfold bump. induction n as [|n IH]; [done|].
  simpl in *. by rewrite IH.
Qed.

Lemma bump_add n m c : bump (n + m) c = bump m (bump n c).
Proof.
  revert c. induction n as [|n IH]; intros c; [done|].
  change (S n + m)%nat with (S (n + m)). by rewrite !bump_succ, IH.
Qed.

Lemma count_directory_spec d : ∀ mc mc',
  count_directory d mc = Some mc' →
  length mc' = length mc
  ∧ ∀ f, mc' !! f = bump (refs_in_directory f d) <$> mc !! f.
Proof.
  induction d as [|e d IH]; intros mc mc' Hcount; simpl in Hcount.
  - injection Hcount as <-. split; [done|]. intros f. simpl. by destruct (mc !! f).
  - destruct (pte_valid e) eqn:Hv; simpl.
    + destruct (mc !! Z.to_nat (pte_pfn e)) as [c|] eqn:Hc; simpl in Hcount; [|done].
      destruct (IH _ _ Hcount) as [Hlen Hspec]. rewrite length_insert in Hlen.
      split; [done|]. intros f. rewrite Hspec. simpl. rewrite Hv. simpl.
      destruct (decide (Z.to_nat (pte_pfn e) = f)) as [<-|Hne].
      * rewrite list_lookup_insert_eq by (by eapply lookup_lt_Some).
        rewrite Hc, Nat.eqb_refl.
        change (Some (bump (refs_in_directory (Z.to_nat (pte_pfn e)) d) (wrap (c + 1)))
                = Some (bump (S (refs_in_directory (Z.to_nat (pte_pfn e)) d)) c)).
        by rewrite bump_succ.
      * rewrite list_lookup_insert_ne by done.
        apply Nat.eqb_neq in Hne. by rewrite Hne.
    + destruct (IH _ _ Hcount) as [Hlen Hspec].
      split; [done|]. intros f. rewrite Hspec. simpl. by rewrite Hv.
Qed.


Lemma count_pagetable_spec slots ds : ∀ mc mc',
  count_pagetable slots ds mc = Some mc' →
  length mc' = length mc
  ∧ ∀ f, mc' !! f = bump (refs_in_pagetable f slots ds) <$> mc !! f.
Proof.
  induction slots as [|[a|] slots IH]; intros mc mc' Hcount; simpl in Hcount.
  - injection Hcount as <-. split; [done|]. intros f. simpl. by destruct (mc !! f).
  - destruct (deref ds a) as [d|] eqn:Hd; simpl in Hcount; [|done].
    destruct (count_directory d mc) as [mc1|] eqn:Hdir; simpl in Hcount; [|done].
    destruct (count_directory_spec _ _ _ Hdir) as [Hlen1 Hspec1].
    destruct (IH _ _ Hcount) as [Hlen Hspec].
    split; [congruence|]. intros f. rewrite Hspec, Hspec1. simpl. rewrite Hd. simpl.
    destruct (mc !! f) as [c|]; simpl; [|done]. by rewrite bump_add.
  - by apply IH.
Qed.


(** ** What a successful call did *)

Lemma alloc_page_inv vpn rw s pfn s' :
  alloc_page vpn rw s = Some (pfn, s') →
  (s' = s ∧ pfn = UINT_MAX ∧ first_index (λ c, c =? 0) (mapcounts s) = None)
  ∨ ∃ f pr,
      first_index (λ c, c =? 0) (mapcounts s) = Some f
      ∧ mapcounts s !! f = Some 0 ∧ pfn = Z.of_nat f
      ∧ procs s !! ptbr s = Some pr
      ∧ ((pagetable pr !! vpn1 vpn = Some None
          ∧ s' = mk_state (processes s) (current s) (ptbr s) (tlb s)
                   (<[f := 1]> (mapcounts s))
                   (<[ptbr s := mk_process (pid pr)
                                  (<[vpn1 vpn := Some (length (dirs s))]> (pagetable pr))]>
                      (procs s))
                   (<[length (dirs s) :=
                        Some (<[vpn2 vpn := mk_pte true rw (Z.of_nat f) 0]>
                                (fresh_directory (length (dirs s))))]>
                      (dirs s ++ [Some (fresh_directory (length (dirs s)))])))
         ∨ ∃ a d,
             pagetable pr !! vpn1 vpn = Some (Some a)
             ∧ deref (dirs s) a = Some d
             ∧ is_Some (d !! vpn2 vpn)
             ∧ s' = mk_state (processes s) (current s) (ptbr s) (tlb s)
                      (<[f := 1]> (mapcounts s)) (procs s)
                      (<[a := Some (<[vpn2 vpn := mk_pte true rw (Z.of_nat f) 0]> d)]>
                         (dirs s))).
Proof.
  unfold alloc_page. intros Halloc.
  destruct (first_index _ (mapcounts s)) as [f|] eqn:Hf.
  2:{ injection Halloc as <- <-. by left. }
  right. destruct (first_index_Some _ _ _ Hf) as (c & Hc & Hz & _).
  apply Z.eqb_eq in Hz as ->. rewrite Hc in Halloc. simpl in Halloc.
  rewrite wrap_succ_0 in Halloc.
  destruct (procs s !! ptbr s) as [pr|] eqn:Hpr; simpl in Halloc; [|done].
  destruct (pagetable pr !! vpn1 vpn) as [[a|]|] eqn:Hslot; simpl in Halloc; [| |done].
  - unfold write_pte in Halloc.
    destruct (deref (dirs s) a) as [d|] eqn:Hd; simpl in Halloc; [|done].
    destruct (d !! vpn2 vpn) as [e|] eqn:He; simpl in Halloc; [|done].
    injection Halloc as <- <-. exists f, pr. split_and!; [done..|].
    right. exists a, d. by rewrite He.
  - unfold write_pte in Halloc.
    assert (deref (dirs s ++ [Some (fresh_directory (length (dirs s)))]) (length (dirs s))
            = Some (fresh_directory (length (dirs s)))) as Hd.
    { unfold deref. by rewrite list_lookup_middle. }
    rewrite Hd in Halloc. simpl in Halloc.
    destruct (fresh_directory (length (dirs s)) !! vpn2 vpn) as [e|]; simpl in Halloc; [|done].
    injection Halloc as <- <-. exists f, pr. split_and!; [done..|]. by left.
Qed.

Lemma free_page_inv vpn s s' :
  free_page vpn s = Some s' →
  ∃ pr a d e c,
    procs s !! ptbr s = Some pr
    ∧ pagetable pr !! vpn1 vpn = Some (Some a)
    ∧ deref (dirs s) a = Some d
    ∧ d !! vpn2 vpn = Some e
    ∧ mapcounts s !! Z.to_nat (pte_pfn e) = Some c
    ∧ let d' := <[vpn2 vpn := mk_pte false (pte_rw e) (pte_pfn e) (pte_private e)]> d in
      s' = mk_state (processes s) (current s) (ptbr s)
             ((λ t, if (tlb_vpn t =? vpn) && (wrap (c - 1) =? 0)
                    then mk_tlb false (tlb_vpn t) (tlb_rw t) (tlb_pfn t)
                    else t) <$> tlb s)
             (<[Z.to_nat (pte_pfn e) := wrap (c - 1)]> (mapcounts s))
             (procs s)
             (<[a := if forallb (λ e, negb (pte_valid e)) d' then None else Some d']>
                (dirs s)).
Proof.
  unfold free_page. intros Hfree.
  destruct (procs s !! ptbr s) as [pr|] eqn:Hpr; simpl in Hfree; [|done].
  destruct (pagetable pr !! vpn1 vpn) as [[a|]|] eqn:Hslot; simpl in Hfree; [|done..].
  destruct (deref (dirs s) a) as [d|] eqn:Hd; simpl in Hfree; [|done].
  destruct (d !! vpn2 vpn) as [e|] eqn:He; simpl in Hfree; [|done].
  destruct (mapcounts s !! Z.to_nat (pte_pfn e)) as [c|] eqn:Hc; simpl in Hfree; [|done].
  rewrite list_lookup_insert_eq in Hfree by (by eapply lookup_lt_Some).
  simpl in Hfree. injection Hfree as <-.
  by exists pr, a, d, e, c.
Qed.

Lemma handle_page_fault_inv vpn rw s r s' :
  handle_page_fault vpn rw s = Some (r, s') →
  s' = s
  ∨ ∃ pr a d e c P t mc,
      procs s !! ptbr s = Some pr
      ∧ pagetable pr !! vpn1 vpn = Some (Some a)
      ∧ deref (dirs s) a = Some d
      ∧ d !! vpn2 vpn = Some e
      ∧ pte_valid e = true
      ∧ cow_fault e rw = true
      ∧ mapcounts s !! Z.to_nat (pte_pfn e) = Some c
      ∧ r = true
      ∧ s' = mk_state (processes s) (current s) (ptbr s) t mc (procs s)
               (<[a := Some (<[vpn2 vpn := mk_pte true (pte_private e) P 0]> d)]> (dirs s))
      ∧ ((c ≤ 1 ∧ P = pte_pfn e ∧ mc = mapcounts s
          ∧ t = tlb_set_rw vpn rw <$> tlb s)
         ∨ (1 < c
            ∧ ∃ f, first_index (λ c, c =? 0)
                     (<[Z.to_nat (pte_pfn e) := wrap (c - 1)]> (mapcounts s)) = Some f
                   ∧ P = Z.of_nat f
                   ∧ mc = <[f := 1]> (<[Z.to_nat (pte_pfn e) := wrap (c - 1)]> (mapcounts s))
                   ∧ t = tlb_set_rw vpn rw <$> (tlb_set_pfn vpn (Z.of_nat f) <$> tlb s))
         ∨ (1 < c
            ∧ first_index (λ c, c =? 0)
                (<[Z.to_nat (pte_pfn e) := wrap (c - 1)]> (mapcounts s)) = None
            ∧ P = pte_pfn e
            ∧ mc = <[Z.to_nat (pte_pfn e) := wrap (c - 1)]> (mapcounts s)
            ∧ t = tlb_set_rw vpn rw <$> (tlb_set_pfn vpn UINT_MAX <$> tlb s))).
Proof.
  unfold handle_page_fault. intros Hpf.
  destruct (procs s !! ptbr s) as [pr|] eqn:Hpr; simpl in Hpf; [|done].
  destruct (pagetable pr !! vpn1 vpn) as [[a|]|] eqn:Hslot; simpl in Hpf; [| |done].
  2:{ injection Hpf as <- <-. by left. }
  destruct (deref (dirs s) a) as [d|] eqn:Hd; simpl in Hpf; [|done].
  destruct (d !! vpn2 vpn) as [e|] eqn:He; simpl in Hpf; [|done].
  destruct e as [v rights p b]. simpl in Hpf.
  destruct v; simpl in Hpf; [|injection Hpf as <- <-; by left].
  destruct (cow_fault _ rw) eqn:Hcow; [|injection Hpf as <- <-; by left].
  destruct (mapcounts s !! Z.to_nat p) as [c|] eqn:Hc; simpl in Hpf; [|done].
  pose proof (deref_lt _ _ _ Hd) as Hlt_a.
  pose proof (lookup_lt_Some _ _ _ He) as Hlt_j.
  right. destruct (1 <? c) eqn:Hgt.
  - set (e1 := mk_pte true b p 0) in *.
    set (ds1 := <[a := Some (<[vpn2 vpn := e1]> d)]> (dirs s)) in *.
    destruct (alloc_page vpn b _) as [[pfn s3]|] eqn:Halloc; simpl in Hpf; [|done].
    injection Hpf as <- <-.
    apply alloc_page_inv in Halloc as [(-> & -> & Hnone)|Hsome].
    + simpl in *. exists pr, a, d, (mk_pte true rights p b), c, p. do 2 eexists.
      split_and!; [done..|reflexivity|].
      right. right. split_and!; [lia|done..].
    + destruct Hsome as (f & pr' & Hf & Hf0 & -> & Hpr' & Hcase). simpl in *.
      rewrite Hpr in Hpr'. injection Hpr' as <-.
      destruct Hcase as [[Hno _]|(a' & d' & Ha' & Hd' & _ & ->)]; [congruence|].
      rewrite Hslot in Ha'. injection Ha' as <-.
      unfold ds1 in Hd'. rewrite deref_insert_eq in Hd' by done. injection Hd' as <-.
      exists pr, a, d, (mk_pte true rights p b), c, (Z.of_nat f). do 2 eexists.
      split_and!; [done..| |].
      * simpl. unfold set_tlb. simpl. f_equal. unfold ds1.
        by rewrite list_insert_insert_eq, list_insert_insert_eq.
      * right. left. split; [lia|]. exists f. by split_and!.
  - injection Hpf as <- <-.
    exists pr, a, d, (mk_pte true rights p b), c, p. do 2 eexists.
    split_and!; [done..|reflexivity|]. left. split_and!; [lia|done..].
Qed.

Lemma switch_process_inv p s s' :
  switch_process p s = Some s' →
  tlb s' = tlb_flush <$> tlb s
  ∧ length (mapcounts s') = length (mapcounts s)
  ∧ ((procs s' = procs s ∧ dirs s' = dirs s)
     ∨ ∃ cur child,
         procs s !! current s = Some cur
         ∧ copy_pagetable (pagetable cur) (dirs s) = Some (child, dirs s')
         ∧ procs s' = procs s ++ [mk_process p child]).
Proof.
  unfold switch_process. intros Hsw.
  destruct (find_process _ _ _) as [[n|]|]; simpl in Hsw; [| |done].
  - injection Hsw as <-. split_and!; [done..|]. by left.
  - unfold fork in Hsw.
    destruct (procs s !! current s) as [cur|] eqn:Hcur; simpl in Hsw; [|done].
    destruct (copy_pagetable _ _) as [[child ds]|] eqn:Hcopy; simpl in Hsw; [|done].
    destruct (count_pagetable _ _ _) as [mc|] eqn:Hmc; simpl in Hsw; [|done].
    injection Hsw as <-. split_and!; [done| |].
    + simpl. by destruct (count_pagetable_spec _ _ _ _ Hmc) as [-> _].
    + right. by exists cur, child.
Qed.

(** ** Rights masks *)

Lemma land_subset_trans a b c :
  Z.land a b = b → Z.land b c = c → Z.land a c = c.
Proof.
  intros Hab Hbc. rewrite <- Hbc at 1. by rewrite Z.land_assoc, Hab.
Qed.

Lemma land_pow2_nonzero x k :
  0 ≤ k → Z.land x (2 ^ k) ≠ 0 → Z.land x (2 ^ k) = 2 ^ k.
Proof.
  intros Hk Hnz. destruct (Z.testbit x k) eqn:Hbit.
  - apply Z.bits_inj'. intros n Hn.
    rewrite Z.land_spec, Z.pow2_bits_eqb by done.
    destruct (Z.eqb_spec k n) as [<-|Hne]; [by rewrite Hbit|apply andb_false_r].
  - destruct Hnz. apply Z.bits_inj'. intros n Hn.
    rewrite Z.land_spec, Z.pow2_bits_eqb, Z.bits_0 by done.
    destruct (Z.eqb_spec k n) as [<-|Hne]; [by rewrite Hbit|apply andb_false_r].
Qed.

(** ** Translation and the TLB *)

Lemma translate_Some vpn rw s P :
  translate vpn rw s = Some P ↔
  ∃ a e, walk s (ptbr s) vpn = Some (Entry a e) ∧ pte_valid e = true
         ∧ Z.land (pte_rw e) rw = rw ∧ pte_pfn e = P.
Proof.
  unfold translate. split.
  - destruct (walk s (ptbr s) vpn) as [[|a e]|]; [done| |done].
    destruct (pte_valid e) eqn:Hv; simpl; [|done].
    destruct (Z.eqb_spec (Z.land (pte_rw e) rw) rw) as [Heq|]; [|done].
    intros [= <-]. by exists a, e.
  - intros (a & e & -> & -> & Hrw & <-). simpl.
    apply Z.eqb_eq in Hrw. by rewrite Hrw.
Qed.

Lemma backed_translate s t :
  backed s t ↔
  ∀ rw, Z.land (tlb_rw t) rw = rw → translate (tlb_vpn t) rw s = Some (tlb_pfn t).
Proof.
  split.
  - intros (a & e & Hw & Hv & Hrw & Hpfn) rw Hsub. apply translate_Some.
    exists a, e. split_and!; [done..| |done]. by eapply land_subset_trans.
  - intros Htr. apply translate_Some. apply Htr. apply Z.land_diag.
Qed.

Lemma coherent_tlb_consistent s : coherent s → tlb_consistent s.
Proof.
  intros (Hback & _) i t Ht Hv. apply backed_translate. by eapply Hback.
Qed.

(** A walk that ends in another cell than the one that was rewritten finds
    what it found before. *)
Lemma walk_update_other s s' v vpn pr a d x a' e' :
  dirs_separate s →
  procs s !! ptbr s = Some pr → pagetable pr !! vpn1 vpn = Some (Some a) →
  deref (dirs s) a = Some d →
  0 ≤ v → 0 ≤ vpn → v ≠ vpn →
  walk s (ptbr s) v = Some (Entry a' e') →
  procs s' = procs s → ptbr s' = ptbr s →
  dirs s' = <[a := Some (<[vpn2 vpn := x]> d)]> (dirs s) →
  walk s' (ptbr s') v = Some (Entry a' e').
Proof.
  intros Hsep Hpr Hslot Hd Hv Hvpn Hne Hw Hprocs Hptbr Hdirs.
  destruct (walk_Entry_inv _ _ _ _ _ Hw) as (pr' & d' & Hpr' & Hslot' & Hd' & He').
  rewrite Hpr in Hpr'. injection Hpr' as <-.
  unfold walk. destruct (decide (a = a')) as [<-|Hna].
  - rewrite Hd in Hd'. injection Hd' as <-.
    apply (cell_Entry_intro _ _ _ _ pr a (<[vpn2 vpn := x]> d)).
    + by rewrite Hptbr, Hprocs.
    + done.
    + rewrite Hdirs. rewrite deref_insert_eq; [done|by eapply deref_lt].
    + rewrite list_lookup_insert_ne; [done|].
      intros Hj. apply Hne. apply vpn_split_inj; [done..| |done].
      by eapply (Hsep _ pr).
  - apply (cell_Entry_intro _ _ _ _ pr a' d').
    + by rewrite Hptbr, Hprocs.
    + done.
    + rewrite Hdirs. by rewrite deref_insert_ne.
    + done.
Qed.

(** ** Every permitted call keeps the state coherent *)

Lemma coherent_boot : coherent boot.
Proof.
  split_and!.
  - intros i t Ht Hv. simpl in Ht. apply lookup_replicate in Ht as [-> _]. done.
  - intros p pr i a Hp Hi. simpl in Hp.
    apply list_lookup_singleton_Some in Hp as [_ <-]. simpl in Hi.
    apply lookup_replicate in Hi as [? _]. done.
  - intros p pr i j a Hp Hi. simpl in Hp.
    apply list_lookup_singleton_Some in Hp as [_ <-]. simpl in Hi.
    apply lookup_replicate in Hi as [? _]. done.
  - intros i t Ht Hv. simpl in Ht. apply lookup_replicate in Ht as [-> _]. done.
Qed.

Lemma coherent_insert_tlb vpn rw pfn s s' :
  coherent s → 0 ≤ vpn → translate vpn rw s = Some pfn →
  insert_tlb vpn rw pfn s = Some s' → coherent s'.
Proof.
  intros (Hback & Halloc & Hsep & Huns) Hvpn Htr Hins. unfold insert_tlb in Hins.
  destruct (first_index (λ e, negb (tlb_valid e)) (tlb s)) as [free_idx|];
    simpl in Hins; [|done].
  injection Hins as <-. split_and!; [|exact Halloc|exact Hsep|].
  - intros i t Ht Hv. simpl in Ht.
    apply list_lookup_insert_Some in Ht as [(_ & <- & _)|[_ Ht]].
    + apply translate_Some in Htr as (a & e & Hw & Hve & Hrw & Hpfn). by exists a, e.
    + by apply (Hback i).
  - intros i t Ht Hv. simpl in Ht.
    apply list_lookup_insert_Some in Ht as [(_ & <- & _)|[_ Ht]]; [done|].
    by apply (Huns i).
Qed.

Lemma coherent_switch_process p s s' :
  coherent s → switch_process p s = Some s' → coherent s'.
Proof.
  intros (Hback & Halloc & Hsep & Huns) Hsw.
  apply switch_process_inv in Hsw as (Htlb & _ & Hcase).
  assert (∀ i e, tlb s' !! i = Some e → tlb_valid e = true → False) as Hflushed.
  { intros i e He Hv. rewrite Htlb, list_lookup_fmap in He.
    destruct (tlb s !! i); simpl in He; [|done]. injection He as <-. done. }
  split_and!.
  - intros i e He Hv. by destruct (Hflushed i e).
  - destruct Hcase as [[Hp Hd]|(cur & child & Hcur & Hcopy & Hp)].
    + intros q pr i a. rewrite Hp, Hd. apply Halloc.
    + destruct (copy_pagetable_shape _ _ _ _ Hcopy) as (Hlen & _ & _ & Hfresh & _).
      intros q pr i a Hq Hi. rewrite Hp in Hq.
      apply lookup_app_Some in Hq as [Hq|[_ Hq]].
      * specialize (Halloc q pr i a Hq Hi). lia.
      * apply list_lookup_singleton_Some in Hq as [_ <-]. simpl in Hi.
        by destruct (Hfresh i a Hi).
  - destruct Hcase as [[Hp Hd]|(cur & child & Hcur & Hcopy & Hp)].
    + intros q pr i j a. rewrite Hp. apply Hsep.
    + destruct (copy_pagetable_shape _ _ _ _ Hcopy) as (_ & _ & _ & _ & Hinj).
      intros q pr i j a Hq Hi Hj. rewrite Hp in Hq.
      apply lookup_app_Some in Hq as [Hq|[_ Hq]].
      * by apply (Hsep q pr i j a).
      * apply list_lookup_singleton_Some in Hq as [_ <-]. simpl in Hi, Hj.
        by apply (Hinj i j a).
  - intros i e He Hv. by destruct (Hflushed i e).
Qed.

Lemma coherent_alloc_page vpn rw s pfn s' :
  coherent s → unmapped s vpn → alloc_page vpn rw s = Some (pfn, s') → coherent s'.
Proof.
  intros (Hback & Halloc & Hsep & Huns) Hun Ha.
  apply alloc_page_inv in Ha as [(-> & _)|(f & pr & Hf & Hf0 & -> & Hpr & Hcase)]; [done|].
  pose proof (lookup_lt_Some _ _ _ Hpr) as Hlt_pr.
  destruct Hcase as [[Hno ->]|(a & d & Hslot & Hd & [e He] & ->)].
  - set (n := length (dirs s)).
    assert (∀ v a e, walk s (ptbr s) v = Some (Entry a e) →
              walk (mk_state (processes s) (current s) (ptbr s) (tlb s)
                      (<[f := 1]> (mapcounts s))
                      (<[ptbr s := mk_process (pid pr)
                                     (<[vpn1 vpn := Some n]> (pagetable pr))]> (procs s))
                      (<[n := Some (<[vpn2 vpn := mk_pte true rw (Z.of_nat f) 0]>
                                      (fresh_directory n))]>
                         (dirs s ++ [Some (fresh_directory n)]))) (ptbr s) v
              = Some (Entry a e)) as Hkeep.
    { intros v a e Hw.
      destruct (walk_Entry_inv _ _ _ _ _ Hw) as (pr0 & d0 & Hpr0 & Hslot0 & Hd0 & He0).
      rewrite Hpr in Hpr0. injection Hpr0 as <-.
      pose proof (deref_lt _ _ _ Hd0) as Hlt_a.
      apply (cell_Entry_intro _ _ _ _
               (mk_process (pid pr) (<[vpn1 vpn := Some n]> (pagetable pr))) a d0).
      - simpl. by rewrite list_lookup_insert_eq.
      - simpl. rewrite list_lookup_insert_ne; [done|]. intros Heq. congruence.
      - simpl. rewrite deref_insert_ne by (unfold n; lia). by rewrite deref_app_l.
      - done. }
    split_and!.
    + intros i t Ht Hv. destruct (Hback i t Ht Hv) as (a & e & Hw & Hrest).
      exists a, e. split; [|done]. by apply Hkeep.
    + intros q pr0 i a Hq Hi. simpl in Hq |- *.
      rewrite length_insert, length_app. simpl. fold n.
      apply list_lookup_insert_Some in Hq as [(_ & <- & _)|[_ Hq]].
      * simpl in Hi. apply list_lookup_insert_Some in Hi as [(_ & Heq & _)|[_ Hi]].
        -- injection Heq as <-. lia.
        -- specialize (Halloc _ _ _ _ Hpr Hi). unfold n. lia.
      * specialize (Halloc _ _ _ _ Hq Hi). unfold n. lia.
    + intros q pr0 i j a Hq Hi Hj. simpl in Hq.
      apply list_lookup_insert_Some in Hq as [(_ & <- & _)|[_ Hq]].
      * simpl in Hi, Hj.
        apply list_lookup_insert_Some in Hi as [(<- & Hi & _)|[_ Hi]];
          apply list_lookup_insert_Some in Hj as [(<- & Hj & _)|[_ Hj]].
        -- done.
        -- injection Hi as <-. specialize (Halloc _ _ _ _ Hpr Hj). unfold n in Halloc. lia.
        -- injection Hj as <-. specialize (Halloc _ _ _ _ Hpr Hi). unfold n in Halloc. lia.
        -- by apply (Hsep (ptbr s) pr i j a).
      * by apply (Hsep q pr0 i j a).
    + exact Huns.
  - assert (pte_valid e = false) as Hinvalid.
    { destruct Hun as [Hw|(a0 & e0 & Hw & Hv0)].
      - apply cell_Absent_inv in Hw as (pr0 & Hpr0 & Hslot0). congruence.
      - destruct (walk_Entry_inv _ _ _ _ _ Hw) as (pr0 & d0 & Hpr0 & Hslot0 & Hd0 & He0).
        congruence. }
    pose proof (deref_lt _ _ _ Hd) as Hlt_a.
    split_and!.
    + intros i t Ht Hv. destruct (Hback i t Ht Hv) as (a0 & e0 & Hw & Hv0 & Hrest).
      exists a0, e0. split; [|done].
      destruct (walk_Entry_inv _ _ _ _ _ Hw) as (pr0 & d0 & Hpr0 & Hslot0 & Hd0 & He0).
      destruct (decide (a = a0)) as [<-|Hne].
      * rewrite Hd in Hd0. injection Hd0 as <-.
        apply (cell_Entry_intro _ _ _ _ pr0 a
                 (<[vpn2 vpn := mk_pte true rw (Z.of_nat f) 0]> d)); [done..| |].
        -- simpl. by rewrite deref_insert_eq.
        -- rewrite list_lookup_insert_ne; [done|]. intros Heq. congruence.
      * apply (cell_Entry_intro _ _ _ _ pr0 a0 d0); [done..| |done].
        simpl. by rewrite deref_insert_ne.
    + intros q pr0 i a0 Hq Hi. simpl. rewrite length_insert. by eapply Halloc.
    + exact Hsep.
    + exact Huns.
Qed.

Lemma forallb_invalid_lookup (d : list pte) j e :
  d !! j = Some e → pte_valid e = true →
  forallb (λ e, negb (pte_valid e)) d = false.
Proof.
  intros He Hv. apply not_true_is_false. intros Hall.
  rewrite forallb_forall in Hall.
  specialize (Hall e). rewrite Hv in Hall. simpl in Hall.
  assert (false = true) as Hff; [|done].
  apply Hall. apply list_elem_of_In. by eapply list_elem_of_lookup_2.
Qed.

Lemma coherent_free_page vpn s s' :
  coherent s → permitted (Free_page vpn) s → free_page vpn s = Some s' → coherent s'.
Proof.
  intros (Hback & Halloc & Hsep & Huns) (Hvpn & a0 & e0 & Hw0 & Hv0 & Hguard) Hfree.
  apply free_page_inv in Hfree as (pr & a & d & e & c & Hpr & Hslot & Hd & He & Hc & Hs').
  destruct (walk_Entry_inv _ _ _ _ _ Hw0) as (pr0 & d0 & Hpr0 & Hslot0 & Hd0 & He0).
  rewrite Hpr in Hpr0. injection Hpr0 as <-.
  rewrite Hslot in Hslot0. injection Hslot0 as <-.
  rewrite Hd in Hd0. injection Hd0 as <-.
  rewrite He in He0. injection He0 as <-.
  simpl in Hs'. subst s'.
  pose proof (deref_lt _ _ _ Hd) as Hlt_a.
  set (d' := <[vpn2 vpn := mk_pte false (pte_rw e) (pte_pfn e) (pte_private e)]> d).
  assert (∀ i t, ((λ t, if (tlb_vpn t =? vpn) && (wrap (c - 1) =? 0)
                        then mk_tlb false (tlb_vpn t) (tlb_rw t) (tlb_pfn t)
                        else t) <$> tlb s) !! i = Some t →
            tlb_valid t = true → tlb s !! i = Some t ∧ tlb_vpn t ≠ vpn) as Hkept.
  { intros i t Ht Hv. rewrite list_lookup_fmap in Ht.
    destruct (tlb s !! i) as [t0|] eqn:Ht0; simpl in Ht; [|done].
    destruct (Z.eqb_spec (tlb_vpn t0) vpn) as [Heq|Hne]; simpl in Ht.
    - destruct (wrap (c - 1) =? 0) eqn:Hz.
      + injection Ht as <-. done.
      + injection Ht as <-. destruct Hguard as [Hone|Hnone].
        * rewrite Hc in Hone. injection Hone as ->. done.
        * by destruct (Hnone i t0 Ht0 Hv).
    - by injection Ht as <-. }
  split_and!.
  - intros i t Ht Hv. simpl in Ht. destruct (Hkept i t Ht Hv) as [Ht0 Hne].
    destruct (Hback i t Ht0 Hv) as (a1 & e1 & Hw1 & Hv1 & Hrest).
    exists a1, e1. split; [|done].
    pose proof (Huns i t Ht0 Hv) as Hnonneg.
    destruct (walk_Entry_inv _ _ _ _ _ Hw1) as (pr1 & d1 & Hpr1 & Hslot1 & Hd1 & He1).
    rewrite Hpr in Hpr1. injection Hpr1 as <-.
    destruct (decide (a = a1)) as [<-|Hna].
    + rewrite Hd in Hd1. injection Hd1 as <-.
      assert (vpn2 (tlb_vpn t) ≠ vpn2 vpn) as Hj.
      { intros Hj. apply Hne. apply vpn_split_inj; [done..| |done].
        by apply (Hsep (ptbr s) pr _ _ a). }
      assert (d' !! vpn2 (tlb_vpn t) = Some e1) as He1'.
      { unfold d'. by rewrite list_lookup_insert_ne. }
      rewrite (forallb_invalid_lookup d' _ _ He1' Hv1).
      apply (cell_Entry_intro _ _ _ _ pr a d'); [done..| |done].
      simpl. by rewrite deref_insert_eq.
    + apply (cell_Entry_intro _ _ _ _ pr a1 d1); [done..| |done].
      simpl. by rewrite deref_insert_ne.
  - intros q pr0 i a1 Hq Hi. simpl. rewrite length_insert. by eapply Halloc.
  - exact Hsep.
  - intros i t Ht Hv. simpl in Ht. destruct (Hkept i t Ht Hv) as [Ht0 _].
    by apply (Huns i).
Qed.

Lemma first_index_not_None (mc : list Z) f :
  mc !! f = Some 0 → first_index (λ c, c =? 0) mc ≠ None.
Proof.
  intros Hf Hnone. by pose proof (first_index_None _ _ Hnone f 0 Hf).
Qed.

Lemma cow_fault_backup_covers e rw k :
  0 ≤ k → rw = 2 ^ k → cow_fault e rw = true → Z.land (pte_private e) rw = rw.
Proof.
  intros Hk -> Hcow. unfold cow_fault in Hcow.
  apply andb_true_iff in Hcow as [_ Hb].
  apply negb_true_iff, Z.eqb_neq in Hb. by apply land_pow2_nonzero.
Qed.

Lemma coherent_handle_page_fault vpn rw s r s' :
  coherent s → permitted (Handle_page_fault vpn rw) s →
  handle_page_fault vpn rw s = Some (r, s') → coherent s'.
Proof.
  intros Hcoh (Hvpn & (k & Hk & Hrw) & Hroom) Hpf.
  apply handle_page_fault_inv in Hpf
    as [->|(pr & a & d & e & c & P & t & mc & Hpr & Hslot & Hd & He & Hv & Hcow
            & Hc & -> & -> & Hcase)]; [done|].
  destruct Hcoh as (Hback & Halloc & Hsep & Huns).
  pose proof (deref_lt _ _ _ Hd) as Hlt_a.
  pose proof (lookup_lt_Some _ _ _ He) as Hlt_j.
  assert (walk s (ptbr s) vpn = Some (Entry a e)) as Hw
    by (by eapply cell_Entry_intro).
  pose proof (cow_fault_backup_covers e rw k Hk Hrw Hcow) as Hcovers.
  set (s' := mk_state (processes s) (current s) (ptbr s) t mc (procs s)
               (<[a := Some (<[vpn2 vpn := mk_pte true (pte_private e) P 0]> d)]> (dirs s))).
  assert (walk s' (ptbr s') vpn = Some (Entry a (mk_pte true (pte_private e) P 0))) as Hw'.
  { apply (cell_Entry_intro _ _ _ _ pr a
             (<[vpn2 vpn := mk_pte true (pte_private e) P 0]> d)); [done..| |].
    - simpl. by rewrite deref_insert_eq.
    - by rewrite list_lookup_insert_eq. }
  assert (∃ g, (∀ t0, tlb_valid t0 && (tlb_vpn t0 =? vpn) = true → tlb_pfn (g t0) = P
                      ∨ tlb_pfn (g t0) = tlb_pfn t0 ∧ P = pte_pfn e)
               ∧ (∀ t0, tlb_valid (g t0) = tlb_valid t0 ∧ tlb_vpn (g t0) = tlb_vpn t0)
               ∧ (∀ t0, tlb_valid t0 && (tlb_vpn t0 =? vpn) = true → tlb_rw (g t0) = rw)
               ∧ (∀ t0, tlb_valid t0 && (tlb_vpn t0 =? vpn) = false → g t0 = t0)
               ∧ t = g <$> tlb s) as (g & Hg_pfn & Hg_same & Hg_rw & Hg_id & ->).
  { destruct Hcase as [(_ & -> & -> & ->)|[(Hgt & f & Hf & -> & -> & ->)|(Hgt & Hnone & _)]].
    - exists (tlb_set_rw vpn rw). unfold tlb_set_rw.
      split_and!; [| | | |done]; intros t0; try intros Hcond;
        try destruct (tlb_valid t0 && (tlb_vpn t0 =? vpn)) eqn:Hc0; simpl; auto; try done.
    - exists (λ t0, tlb_set_rw vpn rw (tlb_set_pfn vpn (Z.of_nat f) t0)).
      unfold tlb_set_rw, tlb_set_pfn.
      split_and!; [| | | |by rewrite <- list_fmap_compose]; intros t0; try intros Hcond;
        try destruct (tlb_valid t0 && (tlb_vpn t0 =? vpn)) eqn:Hc0; simpl;
        rewrite ?Hc0; simpl; auto; try done.
    - exfalso. destruct (Hroom a e c Hw Hv Hcow Hc Hgt) as [f0 Hf0].
      apply (first_index_not_None _ f0) in Hnone; [done|].
      rewrite list_lookup_insert_ne; [done|]. intros <-. rewrite Hc in Hf0.
      injection Hf0 as ->. lia. }
  split_and!.
  - intros i t' Ht' Hv'. simpl in Ht'. rewrite list_lookup_fmap in Ht'.
    destruct (tlb s !! i) as [t0|] eqn:Ht0; simpl in Ht'; [|done].
    injection Ht' as <-. destruct (Hg_same t0) as [Hsv Hsvpn]. rewrite Hsv in Hv'.
    destruct (Hback i t0 Ht0 Hv') as (a1 & e1 & Hw1 & Hv1 & Hrw1 & Hpfn1).
    destruct (tlb_valid t0 && (tlb_vpn t0 =? vpn)) eqn:Hcond.
    + apply andb_true_iff in Hcond as Hboth. destruct Hboth as [_ Heq].
      apply Z.eqb_eq in Heq. rewrite Heq in Hw1. rewrite Hw in Hw1.
      injection Hw1 as <- <-.
      exists a, (mk_pte true (pte_private e) P 0). unfold backed. rewrite Hsvpn, Heq.
      split_and!; [exact Hw'|done| |].
      * simpl. by rewrite (Hg_rw t0 Hcond).
      * simpl. destruct (Hg_pfn t0 Hcond) as [->|[-> ->]]; done.
    + rewrite (Hg_id t0 Hcond). exists a1, e1. split; [|done].
      assert (tlb_vpn t0 ≠ vpn) as Hne.
      { intros Heq. rewrite Hv', Heq, Z.eqb_refl in Hcond. done. }
      apply (walk_update_other s s' (tlb_vpn t0) vpn pr a d
               (mk_pte true (pte_private e) P 0) a1 e1);
        [done|done|done|done|by eapply Huns|done|done|done|done|done|done].
  - intros q pr0 i a1 Hq Hi. simpl. rewrite length_insert. by eapply Halloc.
  - exact Hsep.
  - intros i t' Ht' Hv'. simpl in Ht'. rewrite list_lookup_fmap in Ht'.
    destruct (tlb s !! i) as [t0|] eqn:Ht0; simpl in Ht'; [|done].
    injection Ht' as <-. destruct (Hg_same t0) as [Hsv Hsvpn]. rewrite Hsv in Hv'.
    rewrite Hsvpn. by eapply Huns.
Qed.

Lemma reachable_coherent s : reachable s → coherent s.
Proof.
  induction 1 as [|o s s' Hreach IH Hperm Hexec]; [apply coherent_boot|].
  destruct o as [vpn rw|vpn rw pfn|vpn rw|vpn|vpn rw|p]; simpl in Hexec.
  - by injection Hexec as <-.
  - destruct Hperm as [Hvpn Htr]. by eapply coherent_insert_tlb.
  - destruct (alloc_page vpn rw s) as [[pfn s0]|] eqn:Ha; simpl in Hexec; [|done].
    injection Hexec as <-. by eapply coherent_alloc_page.
  - by eapply coherent_free_page.
  - destruct (handle_page_fault vpn rw s) as [[r s0]|] eqn:Hpf; simpl in Hexec; [|done].
    injection Hexec as <-. by eapply coherent_handle_page_fault.
  - by eapply coherent_switch_process.
Qed.

Lemma reachable_run os : ∀ s s',
  reachable s → permitted_run os s → run os s = Some s' → reachable s'.
Proof.
  induction os as [|o os IH]; intros s s' Hreach Hperm Hrun; simpl in *.
  - by injection Hrun as <-.
  - destruct Hperm as [Hperm Hrest].
    destruct (exec o s) as [s1|] eqn:Hexec; simpl in Hrun; [|done].
    eapply IH; [|done..]. by eapply reachable_step.
Qed.

Lemma permitted_run_cons o os s s1 :
  permitted o s → exec o s = Some s1 → permitted_run os s1 →
  permitted_run (o :: os) s.
Proof. intros Hperm Hexec Hrest. simpl. by rewrite Hexec. Qed.

(** ** The arrays keep their sizes *)

Lemma copy_pagetable_blocks n slots : ∀ ds child ds',
  copy_pagetable slots ds = Some (child, ds') →
  (∀ a d, deref ds a = Some d → length d = n) →
  ∀ a d, deref ds' a = Some d → length d = n.
Proof.
  induction slots as [|[a0|] slots IH]; intros ds child ds' Hcopy Hlen; simpl in Hcopy.
  - by injection Hcopy as <- <-.
  - destruct (deref ds a0) as [d0|] eqn:Hd0; simpl in Hcopy; [|done].
    destruct (copy_pagetable slots _) as [[c1 ds1]|] eqn:Hrest; simpl in Hcopy; [|done].
    injection Hcopy as <- <-. eapply IH; [done|].
    pose proof (deref_lt _ _ _ Hd0) as Hlt.
    assert (length (cow_protect <$> d0) = n) as Hcow
      by (rewrite length_fmap; by eapply Hlen).
    intros a d Hd. apply deref_Some in Hd.
    apply lookup_app_Some in Hd as [Hd|[_ Hd]].
    + apply list_lookup_insert_Some in Hd as [(_ & Heq & _)|[_ Hd]].
      * by injection Heq as <-.
      * eapply Hlen. by apply deref_Some.
    + apply list_lookup_singleton_Some in Hd as [_ Heq]. by injection Heq as <-.
  - destruct (copy_pagetable slots ds) as [[c1 ds1]|] eqn:Hrest; simpl in Hcopy; [|done].
    injection Hcopy as <- <-. by eapply IH.
Qed.

Lemma shaped_boot : shaped boot.
Proof.
  split_and!; simpl.
  - apply length_replicate.
  - apply length_replicate.
  - intros p pr Hp. apply list_lookup_singleton_Some in Hp as [_ <-].
    apply length_replicate.
  - intros a d Hd. by apply deref_Some in Hd.
Qed.

Lemma shaped_exec o s s' : shaped s → exec o s = Some s' → shaped s'.
Proof.
  intros (Htlb & Hmc & Hpt & Hdir) Hexec.
  destruct o as [vpn rw|vpn rw pfn|vpn rw|vpn|vpn rw|p]; simpl in Hexec.
  - by injection Hexec as <-.
  - unfold insert_tlb in Hexec.
    destruct (first_index (λ e, negb (tlb_valid e)) (tlb s)); simpl in Hexec; [|done].
    injection Hexec as <-. split_and!; [|done..]. simpl. by rewrite length_insert.
  - destruct (alloc_page vpn rw s) as [[pfn s0]|] eqn:Ha; simpl in Hexec; [|done].
    injection Hexec as <-.
    apply alloc_page_inv in Ha as [(-> & _)|(f & pr & Hf & Hf0 & -> & Hpr & Hcase)]; [done|].
    destruct Hcase as [[Hno ->]|(a & d & Hslot & Hd & _ & ->)]; split_and!; simpl;
      try done; try (by rewrite length_insert).
    + intros q pr0 Hq. apply list_lookup_insert_Some in Hq as [(_ & <- & _)|[_ Hq]].
      * simpl. rewrite length_insert. by eapply Hpt.
      * by eapply Hpt.
    + intros a d Hd. apply deref_Some in Hd.
      apply list_lookup_insert_Some in Hd as [(_ & Heq & _)|[_ Hd]].
      * injection Heq as <-. by rewrite length_insert, fresh_directory_length.
      * apply lookup_app_Some in Hd as [Hd|[_ Hd]].
        -- eapply Hdir. by apply deref_Some.
        -- apply list_lookup_singleton_Some in Hd as [_ Heq]. injection Heq as <-.
           apply fresh_directory_length.
    + intros a0 d0 Hd0. apply deref_Some in Hd0.
      apply list_lookup_insert_Some in Hd0 as [(_ & Heq & _)|[_ Hd0]].
      * injection Heq as <-. rewrite length_insert. by eapply Hdir.
      * eapply Hdir. by apply deref_Some.
  - apply free_page_inv in Hexec
      as (pr & a & d & e & c & Hpr & Hslot & Hd & He & Hc & ->).
    split_and!; simpl.
    + by rewrite length_fmap.
    + by rewrite length_insert.
    + done.
    + intros a0 d0 Hd0. apply deref_Some in Hd0.
      apply list_lookup_insert_Some in Hd0 as [(_ & Heq & _)|[_ Hd0]].
      * destruct (forallb _ _); [done|]. injection Heq as <-.
        rewrite length_insert. by eapply Hdir.
      * eapply Hdir. by apply deref_Some.
  - destruct (handle_page_fault vpn rw s) as [[r s0]|] eqn:Hpf; simpl in Hexec; [|done].
    injection Hexec as <-.
    apply handle_page_fault_inv in Hpf
      as [->|(pr & a & d & e & c & P & t & mc & Hpr & Hslot & Hd & He & Hv & Hcow
              & Hc & -> & -> & Hcase)]; [done|].
    split_and!; simpl.
    + destruct Hcase as [(_ & _ & _ & ->)|[(_ & f & _ & _ & _ & ->)|(_ & _ & _ & _ & ->)]];
        by rewrite ?length_fmap.
    + destruct Hcase as [(_ & _ & -> & _)|[(_ & f & _ & _ & -> & _)|(_ & _ & _ & -> & _)]];
        by rewrite ?length_insert.
    + done.
    + intros a0 d0 Hd0. apply deref_Some in Hd0.
      apply list_lookup_insert_Some in Hd0 as [(_ & Heq & _)|[_ Hd0]].
      * injection Heq as <-. rewrite length_insert. by eapply Hdir.
      * eapply Hdir. by apply deref_Some.
  - apply switch_process_inv in Hexec as (Ht & Hlen & Hcase).
    split_and!.
    + by rewrite Ht, length_fmap.
    + congruence.
    + destruct Hcase as [[-> _]|(cur & child & Hcur & Hcopy & ->)]; [done|].
      intros q pr Hq. apply lookup_app_Some in Hq as [Hq|[_ Hq]]; [by eapply Hpt|].
      apply list_lookup_singleton_Some in Hq as [_ <-]. simpl.
      rewrite (copy_pagetable_length _ _ _ _ Hcopy). by eapply Hpt.
    + destruct Hcase as [[_ ->]|(cur & child & Hcur & Hcopy & _)]; [done|].
      by eapply copy_pagetable_blocks.
Qed.

(** Whatever the simulator calls, from the empty state on. *)
Lemma shaped_run os : ∀ s s', shaped s → run os s = Some s' → shaped s'.
Proof.
  induction os as [|o os IH]; intros s s' Hs Hrun; simpl in Hrun.
  - by injection Hrun as <-.
  - destruct (exec o s) as [s1|] eqn:Hexec; simpl in Hrun; [|done].
    eapply IH; [|done]. by eapply shaped_exec.
Qed.

(** ** [lookup_tlb] *)

Lemma tlb_hit_ignores_rw vpn rw rw' e : tlb_hit vpn rw e = tlb_hit vpn rw' e.
Proof. unfold tlb_hit. by rewrite !Z.eqb_refl. Qed.

Lemma lookup_tlb_ignores_rw vpn rw rw' s : lookup_tlb vpn rw s = lookup_tlb vpn rw' s.
Proof.
  unfold lookup_tlb. induction (tlb s) as [|e t IH]; [done|].
  simpl. rewrite (tlb_hit_ignores_rw vpn rw rw'). by rewrite IH.
Qed.

(** ** [handle_page_fault]: the paths that change nothing *)


(** C10: when [handle_page_fault] returns [false], the state it returns is
    the state it was given: no page table, TLB entry or reference count has
    changed. *)
Theorem handle_page_fault_failure_preserves_state vpn rw s s' :
  handle_page_fault vpn rw s = Some (false, s') → s' = s.
Proof.
  unfold handle_page_fault. intros H.
  destruct (procs s !! ptbr s) as [pr|]; simpl in H; [|done].
  destruct (pagetable pr !! vpn1 vpn) as [[a|]|]; simpl in H; [|done..].
  destruct (deref (dirs s) a) as [d|]; simpl in H; [|done].
  destruct (d !! vpn2 vpn) as [e|]; simpl in H; [|done].
  destruct (negb (pte_valid e)); [done|].
  destruct (cow_fault e rw); [|congruence].
  destruct (mapcounts _ !! _) as [c|]; simpl in H; [|done].
  destruct (1 <? c); simpl in H.
  - destruct (alloc_page _ _ _) as [[pfn s3]|]; simpl in H; done.
  - done.
Qed.

(** ** [alloc_page] *)

Lemma alloc_page_free_frame vpn rw s f w :
  lowest_free (mapcounts s) f → walk s (ptbr s) vpn = Some w →
  ∃ s' a,
    alloc_page vpn rw s = Some (Z.of_nat f, s')
    ∧ mapcounts s' = <[f := 1]> (mapcounts s)
    ∧ ptbr s' = ptbr s ∧ tlb s' = tlb s
    ∧ walk s' (ptbr s') vpn = Some (Entry a (mk_pte true rw (Z.of_nat f) 0))
    ∧ match w with
      | Absent =>
          a = length (dirs s)
          ∧ ∀ j, (j < NR_PTES_PER_PAGE)%nat → j ≠ vpn2 vpn →
              ∃ e, cell s' (ptbr s') (vpn1 vpn) j = Some (Entry a e)
                   ∧ pte_valid e = false
      | Entry a0 _ =>
          a = a0
          ∧ ∀ j, j ≠ vpn2 vpn →
              cell s' (ptbr s') (vpn1 vpn) j = cell s (ptbr s) (vpn1 vpn) j
      end.
Proof.
  intros Hfree Hw. unfold alloc_page.
  rewrite (first_free_lowest _ _ Hfree). destruct Hfree as [Hf _].
  rewrite Hf. simpl. rewrite wrap_succ_0.
  unfold walk, cell in Hw |- *.
  destruct (procs s !! ptbr s) as [pr|] eqn:Hpr; simpl in Hw |- *; [|done].
  destruct (pagetable pr !! vpn1 vpn) as [slot|] eqn:Hslot; simpl in Hw |- *; [|done].
  pose proof (lookup_lt_Some _ _ _ Hpr) as Hlt_pr.
  pose proof (lookup_lt_Some _ _ _ Hslot) as Hlt_slot.
  pose proof (vpn2_lt vpn) as Hlt_j.
  destruct slot as [a|].
  - destruct (deref (dirs s) a) as [d|] eqn:Hd; simpl in Hw; [|done].
    destruct (d !! vpn2 vpn) as [e|] eqn:He; simpl in Hw; [|done].
    injection Hw as <-.
    pose proof (deref_lt _ _ _ Hd) as Hlt_a.
    unfold write_pte. rewrite Hd. simpl. rewrite He. simpl.
    eexists _, a. split; [done|]. simpl. rewrite Hpr. simpl. rewrite Hslot. simpl.
    rewrite deref_insert_eq by done. simpl.
    rewrite list_lookup_insert_eq by (by eapply lookup_lt_Some).
    split_and!; try done.
    intros j Hj. by rewrite list_lookup_insert_ne.
  - injection Hw as <-.
    unfold write_pte.
    assert (deref (dirs s ++ [Some (fresh_directory (length (dirs s)))]) (length (dirs s))
            = Some (fresh_directory (length (dirs s)))) as Hd.
    { unfold deref. by rewrite list_lookup_middle. }
    rewrite Hd. simpl.
    destruct (fresh_directory (length (dirs s)) !! vpn2 vpn) as [e|] eqn:He; simpl.
    2:{ apply lookup_ge_None in He. rewrite fresh_directory_length in He. lia. }
    eexists _, (length (dirs s)). split; [done|]. simpl.
    rewrite list_lookup_insert_eq by done. simpl.
    rewrite list_lookup_insert_eq by done. simpl.
    rewrite deref_insert_eq by (rewrite length_app; simpl; lia). simpl.
    rewrite list_lookup_insert_eq by (rewrite fresh_directory_length; lia).
    split_and!; try done.
    intros j Hj Hne. rewrite list_lookup_insert_ne by done.
    destruct (fresh_directory (length (dirs s)) !! j) as [e'|] eqn:He'; simpl.
    + exists e'. split; [done|]. by eapply fresh_directory_invalid.
    + apply lookup_ge_None in He'. rewrite fresh_directory_length in He'. lia.
Qed.



(** ** [handle_page_fault]: copy-on-write *)






(** ** [switch_process]: fork *)


(** ** [handle_page_fault]: what it leaves alone *)

(** C9: a process [other] that shares no directory by reference with the
    running process, as is the case for parent and child after a fork,
    finds every one of its entries unchanged (same frame, same rights, same
    backup) after the running process went through [handle_page_fault];
    and when the count of the faulting entry's frame was exactly 1, no
    reference count changes and the entry keeps its frame. *)
Theorem handle_page_fault_frame vpn rw s r s' other :
  handle_page_fault vpn rw s = Some (r, s') →
  (∀ pr po i j a, procs s !! ptbr s = Some pr → procs s !! other = Some po →
     pagetable pr !! i = Some (Some a) → pagetable po !! j = Some (Some a) → False) →
  (∀ i j, cell s' other i j = cell s other i j)
  ∧ (∀ a e, walk s (ptbr s) vpn = Some (Entry a e) →
       mapcounts s !! Z.to_nat (pte_pfn e) = Some 1 →
       mapcounts s' = mapcounts s
       ∧ ∃ e', walk s' (ptbr s') vpn = Some (Entry a e') ∧ pte_pfn e' = pte_pfn e).
Proof.
  intros Hpf Hsep.
  apply handle_page_fault_inv in Hpf
    as [->|(pr & a & d & e & c & P & t & mc & Hpr & Hslot & Hd & He & Hv & Hcow
            & Hc & -> & -> & Hcase)].
  { split; [done|]. intros a e Hw _. split; [done|]. by exists e. }
  pose proof (deref_lt _ _ _ Hd) as Hlt_a.
  pose proof (lookup_lt_Some _ _ _ He) as Hlt_j.
  split.
  - intros i j. unfold cell. simpl.
    destruct (procs s !! other) as [po|] eqn:Hpo; simpl; [|done].
    destruct (pagetable po !! i) as [[b|]|] eqn:Hb; simpl; [|done..].
    rewrite deref_insert_ne; [done|].
    intros ->. by eapply (Hsep pr po (vpn1 vpn) i).
  - intros a0 e0 Hw H1.
    destruct (walk_Entry_inv _ _ _ _ _ Hw) as (pr0 & d0 & Hpr0 & Hslot0 & Hd0 & He0).
    rewrite Hpr in Hpr0. injection Hpr0 as <-.
    rewrite Hslot in Hslot0. injection Hslot0 as <-.
    rewrite Hd in Hd0. injection Hd0 as <-.
    rewrite He in He0. injection He0 as <-.
    rewrite Hc in H1. injection H1 as ->.
    destruct Hcase as [(_ & -> & -> & _)|[(Hgt & _)|(Hgt & _)]]; [|lia..].
    split; [done|]. exists (mk_pte true (pte_private e) (pte_pfn e) 0).
    split; [|done].
    unfold walk, cell. simpl. rewrite Hpr. simpl. rewrite Hslot. simpl.
    rewrite deref_insert_eq by done. simpl.
    by rewrite list_lookup_insert_eq by done.
Qed.

(** ** The TLB and the page table *)

(** C8 (as amended): in every state reached from the empty state by
    permitted calls, whatever a valid TLB entry caches for a VPN, with
    rights [R], the page table of the running process grants for every
    rights mask contained in [R], with the same frame. *)
Theorem reachable_tlb_consistent s : reachable s → tlb_consistent s.
Proof. intros Hreach. by apply coherent_tlb_consistent, reachable_coherent. Qed.

(** ** [switch_process]: an existing process *)

Lemma find_process_elem prs p ready n :
  find_process prs p ready = Some (Some n) → n ∈ ready.
Proof.
  induction ready as [|pos ready IH]; simpl; [done|].
  destruct (prs !! pos) as [pr|]; simpl; [|done].
  destruct (pid pr =? p).
  - intros [= <-]. by left.
  - intros Hn. right. by apply IH.
Qed.

(** The switch to a process found in the ready list: the old current goes
    to the tail, the TLB is flushed, and the ready list loses nothing, not
    even the process that now runs. *)
Lemma switch_process_found p s n :
  find_process (procs s) p (processes s) = Some (Some n) →
  switch_process p s
  = Some (mk_state (processes s ++ [current s]) n n (tlb_flush <$> tlb s)
                   (mapcounts s) (procs s) (dirs s))
  ∧ n ∈ processes s ++ [current s].
Proof.
  intros Hfind. split.
  - unfold switch_process. by rewrite Hfind.
  - apply elem_of_app. left. by eapply find_process_elem.
Qed.

(** ** [free_page] *)

(** What [free_page] does on a mapped entry: one reference less, the entry
    invalid, the TLB entries for [vpn] invalid exactly when the count
    reached zero, and the page table of the process untouched, so that the
    slot still holds the address of a directory that may just have been
    freed. *)
Lemma free_page_mapped vpn s a e c :
  walk s (ptbr s) vpn = Some (Entry a e) →
  mapcounts s !! Z.to_nat (pte_pfn e) = Some c →
  ∃ s', free_page vpn s = Some s'
    ∧ mapcounts s' = <[Z.to_nat (pte_pfn e) := wrap (c - 1)]> (mapcounts s)
    ∧ procs s' = procs s
    ∧ tlb s' = (λ t, if (tlb_vpn t =? vpn) && (wrap (c - 1) =? 0)
                     then mk_tlb false (tlb_vpn t) (tlb_rw t) (tlb_pfn t)
                     else t) <$> tlb s
    ∧ (walk s' (ptbr s') vpn
       = Some (Entry a (mk_pte false (pte_rw e) (pte_pfn e) (pte_private e)))
       ∨ walk s' (ptbr s') vpn = None ∧ dirs s' !! a = Some None).
Proof.
  intros Hw Hc.
  destruct (walk_Entry_inv _ _ _ _ _ Hw) as (pr & d & Hpr & Hslot & Hd & He).
  pose proof (deref_lt _ _ _ Hd) as Hlt_a.
  pose proof (lookup_lt_Some _ _ _ He) as Hlt_j.
  unfold free_page. rewrite Hpr. simpl. rewrite Hslot. simpl. rewrite Hd. simpl.
  rewrite He. simpl. rewrite Hc. simpl.
  rewrite list_lookup_insert_eq by (by eapply lookup_lt_Some). simpl.
  eexists. split; [done|]. simpl. split_and!; [done..|].
  unfold walk, cell. simpl. rewrite Hpr. simpl. rewrite Hslot. simpl.
  rewrite deref_insert_eq by done.
  destruct (forallb _ _); simpl.
  - right. split; [done|]. by rewrite list_lookup_insert_eq.
  - left. by rewrite list_lookup_insert_eq.
Qed.

(** ** Further results: the TLB *)

Lemma tlb_hit_true vpn rw e :
  tlb_hit vpn rw e = true ↔
  tlb_vpn e = vpn ∧ Z.land (tlb_rw e) 1 ≠ 0 ∧ tlb_valid e = true.
Proof.
  unfold tlb_hit. rewrite Z.eqb_refl. simpl.
  rewrite !andb_true_iff, negb_true_iff, Z.eqb_eq, Z.eqb_neq.
  split; [intros [[? ?] ?]|intros (? & ? & ?)]; by split_and!.
Qed.

Lemma lookup_tlb_from_first vpn rw t :
  lookup_tlb_from vpn rw t
  = match first_index (tlb_hit vpn rw) t with
    | Some i => tlb_pfn <$> t !! i
    | None => None
    end.
Proof.
  induction t as [|e t IH]; simpl; [done|].
  destruct (tlb_hit vpn rw e); [done|].
  rewrite IH. by destruct (first_index _ t).
Qed.

(** X1: [lookup_tlb] reports the frame of the first valid entry for [vpn]
    whose cached rights have bit 0 set, and a miss when there is none; the
    requested rights play no part. *)
Theorem lookup_tlb_first_readable vpn rw s :
  match lookup_tlb vpn rw s with
  | Some pfn =>
      ∃ i e, tlb s !! i = Some e
             ∧ tlb_valid e = true ∧ tlb_vpn e = vpn ∧ Z.land (tlb_rw e) 1 ≠ 0
             ∧ tlb_pfn e = pfn
             ∧ ∀ j e', (j < i)%nat → tlb s !! j = Some e' →
                 ¬ (tlb_valid e' = true ∧ tlb_vpn e' = vpn ∧ Z.land (tlb_rw e') 1 ≠ 0)
  | None =>
      ∀ i e, tlb s !! i = Some e → tlb_valid e = true → tlb_vpn e = vpn →
        Z.land (tlb_rw e) 1 = 0
  end.
Proof.
  unfold lookup_tlb. rewrite lookup_tlb_from_first.
  destruct (first_index _ (tlb s)) as [i|] eqn:Hi.
  - destruct (first_index_Some _ _ _ Hi) as (e & He & Hhit & Hlow).
    rewrite He. simpl. apply tlb_hit_true in Hhit as (Hvpn & Hrw & Hv).
    exists i, e. split_and!; [done..|].
    intros j e' Hj He' (Hv' & Hvpn' & Hrw').
    assert (tlb_hit vpn rw e' = true) as Hhit' by (by apply tlb_hit_true).
    by rewrite (Hlow j e' Hj He') in Hhit'.
  - intros i e He Hv Hvpn.
    pose proof (first_index_None _ _ Hi i e He) as Hmiss.
    destruct (decide (Z.land (tlb_rw e) 1 = 0)) as [|Hnz]; [done|].
    assert (tlb_hit vpn rw e = true) as Hhit by (by apply tlb_hit_true).
    by rewrite Hmiss in Hhit.
Qed.

Lemma first_index_is_Some {A} (p : A → bool) (l : list A) :
  is_Some (first_index p l) ↔ ∃ i x, l !! i = Some x ∧ p x = true.
Proof.
  split.
  - intros [i Hi]. destruct (first_index_Some _ _ _ Hi) as (x & Hx & Hp & _).
    by exists i, x.
  - intros (i & x & Hx & Hp). destruct (first_index p l) as [k|] eqn:Hk; [done|].
    by rewrite (first_index_None _ _ Hk i x Hx) in Hp.
Qed.

(** X2: [insert_tlb] is defined exactly when some cell of the TLB is not
    valid: its first loop looks for such a cell before anything else, so
    with a full TLB even the update of an entry that is there runs off the
    array. *)
Theorem insert_tlb_defined vpn rw pfn s :
  is_Some (insert_tlb vpn rw pfn s) ↔ ∃ i e, tlb s !! i = Some e ∧ tlb_valid e = false.
Proof.
  unfold insert_tlb.
  destruct (first_index (λ e, negb (tlb_valid e)) (tlb s)) as [k|] eqn:Hk; simpl.
  - split; [|by eexists]. intros _.
    destruct (first_index_Some _ _ _ Hk) as (e & He & Hv & _).
    exists k, e. split; [done|]. by apply negb_true_iff.
  - split; [by intros [x Hx]|]. intros (i & e & He & Hv).
    pose proof (first_index_None _ _ Hk i e He) as Hn. simpl in Hn.
    by rewrite Hv in Hn.
Qed.

(** Where [insert_tlb] writes: the first valid entry for [vpn] when there
    is one, the first cell that is not valid otherwise. *)
Lemma insert_tlb_inv vpn rw pfn s s' :
  insert_tlb vpn rw pfn s = Some s' →
  ∃ k old, tlb s !! k = Some old
    ∧ s' = set_tlb s (<[k := mk_tlb true vpn rw pfn]> (tlb s))
    ∧ (tlb_valid old = true → tlb_vpn old = vpn)
    ∧ (∀ j e, tlb s !! j = Some e → tlb_valid e = true → tlb_vpn e = vpn →
         (k ≤ j)%nat ∧ tlb_valid old = true).
Proof.
  unfold insert_tlb. intros Hins.
  destruct (first_index (λ e, negb (tlb_valid e)) (tlb s)) as [free_idx|] eqn:Hfree;
    simpl in Hins; [|done].
  injection Hins as <-.
  destruct (first_index (λ e, tlb_valid e && (tlb_vpn e =? vpn)) (tlb s)) as [k|] eqn:Hk;
    simpl.
  - destruct (first_index_Some _ _ _ Hk) as (old & Hold & Hp & Hlow).
    apply andb_true_iff in Hp as [Hv Hvpn]. apply Z.eqb_eq in Hvpn.
    exists k, old. split_and!; [done..|].
    intros j e He Hve Hvpne. split; [|done].
    destruct (decide (k ≤ j)%nat) as [|Hlt]; [done|].
    assert (j < k)%nat as Hjk by lia.
    pose proof (Hlow j e Hjk He) as Hn. simpl in Hn.
    rewrite Hve, Hvpne, Z.eqb_refl in Hn. done.
  - destruct (first_index_Some _ _ _ Hfree) as (old & Hold & Hp & _).
    apply negb_true_iff in Hp.
    exists free_idx, old. split_and!; [done|done|by rewrite Hp|].
    intros j e He Hve Hvpne.
    pose proof (first_index_None _ _ Hk j e He) as Hn. simpl in Hn.
    rewrite Hve, Hvpne, Z.eqb_refl in Hn. done.
Qed.

Lemma lookup_tlb_from_miss vpn rw (t : list tlb_entry) :
  (∀ j e, t !! j = Some e → tlb_hit vpn rw e = false) →
  lookup_tlb_from vpn rw t = None.
Proof.
  intros Hmiss. rewrite lookup_tlb_from_first.
  destruct (first_index (tlb_hit vpn rw) t) as [i|] eqn:Hi; [|done].
  destruct (first_index_Some _ _ _ Hi) as (e & He & Hhit & _).
  by rewrite (Hmiss i e He) in Hhit.
Qed.

(** X3: a translation cached by [insert_tlb] with rights that have bit 0
    set is what [lookup_tlb] returns for that VPN afterwards, whatever
    rights are requested; cached with rights that have bit 0 clear, in a
    TLB with at most one valid entry per VPN, it is never found again. *)
Theorem insert_tlb_lookup vpn rw pfn s s' rw' :
  insert_tlb vpn rw pfn s = Some s' →
  (Z.land rw 1 ≠ 0 → lookup_tlb vpn rw' s' = Some pfn)
  ∧ (Z.land rw 1 = 0 → tlb_unique (tlb s) → lookup_tlb vpn rw' s' = None).
Proof.
  intros Hins.
  apply insert_tlb_inv in Hins as (k & old & Hold & -> & Holdvpn & Hfirst).
  pose proof (lookup_lt_Some _ _ _ Hold) as Hlt.
  unfold lookup_tlb. simpl. split.
  - intros Hodd. rewrite lookup_tlb_from_first.
    rewrite (first_index_lowest _ _ k (mk_tlb true vpn rw pfn)).
    + by rewrite list_lookup_insert_eq.
    + by rewrite list_lookup_insert_eq.
    + by apply tlb_hit_true.
    + intros j e Hj He. rewrite list_lookup_insert_ne in He by lia.
      destruct (tlb_hit vpn rw' e) eqn:Hhit; [|done].
      apply tlb_hit_true in Hhit as (Hvpn & _ & Hv).
      destruct (Hfirst j e He Hv Hvpn) as [Hle _]. lia.
  - intros Heven Huniq. apply lookup_tlb_from_miss. intros j e He.
    destruct (tlb_hit vpn rw' e) eqn:Hhit; [|done].
    apply tlb_hit_true in Hhit as (Hvpn & Hrw & Hv).
    apply list_lookup_insert_Some in He as [(_ & <- & _)|[Hne He]]; [done|].
    destruct (Hfirst j e He Hv Hvpn) as [_ Hvold].
    destruct Hne. apply (Huniq k j old e); [done..|].
    by rewrite Hvpn, Holdvpn.
Qed.

Lemma lookup_tlb_from_insert_miss vpn rw new : ∀ (t : list tlb_entry) k old,
  t !! k = Some old → tlb_hit vpn rw old = false → tlb_hit vpn rw new = false →
  lookup_tlb_from vpn rw (<[k := new]> t) = lookup_tlb_from vpn rw t.
Proof.
  induction t as [|e t IH]; intros k old Hold Hmo Hmn; [done|].
  destruct k as [|k]; simpl in *.
  - injection Hold as ->. by rewrite Hmo, Hmn.
  - destruct (tlb_hit vpn rw e); [done|]. by eapply IH.
Qed.

(** X4: [insert_tlb] for one VPN changes nothing in what [lookup_tlb]
    answers for any other VPN. *)
Theorem insert_tlb_other_vpn vpn rw pfn s s' vpn' rw' :
  insert_tlb vpn rw pfn s = Some s' → vpn' ≠ vpn →
  lookup_tlb vpn' rw' s' = lookup_tlb vpn' rw' s.
Proof.
  intros Hins Hne.
  apply insert_tlb_inv in Hins as (k & old & Hold & -> & Holdvpn & _).
  unfold lookup_tlb. simpl. apply (lookup_tlb_from_insert_miss _ _ _ _ _ old); [done| |].
  - destruct (tlb_hit vpn' rw' old) eqn:Hhit; [|done].
    apply tlb_hit_true in Hhit as (Hvpn & _ & Hv).
    destruct Hne. by rewrite <- Hvpn, Holdvpn.
  - destruct (tlb_hit vpn' rw' (mk_tlb true vpn rw pfn)) eqn:Hhit; [|done].
    apply tlb_hit_true in Hhit as (Hvpn & _). simpl in Hvpn. by destruct Hne.
Qed.

Lemma tlb_unique_fmap (g : tlb_entry → tlb_entry) t :
  (∀ e, tlb_vpn (g e) = tlb_vpn e) →
  (∀ e, tlb_valid (g e) = true → tlb_valid e = true) →
  tlb_unique t → tlb_unique (g <$> t).
Proof.
  intros Hvpn Hvalid Huniq i j ei ej Hi Hj Hvi Hvj Heq.
  rewrite list_lookup_fmap in Hi, Hj.
  destruct (t !! i) as [ei0|] eqn:Hi0; simpl in Hi; [|done].
  destruct (t !! j) as [ej0|] eqn:Hj0; simpl in Hj; [|done].
  injection Hi as <-. injection Hj as <-.
  apply (Huniq i j ei0 ej0); [done|done|by apply Hvalid|by apply Hvalid|].
  by rewrite !Hvpn in Heq.
Qed.

Lemma tlb_set_rw_same vpn rw e :
  tlb_vpn (tlb_set_rw vpn rw e) = tlb_vpn e
  ∧ tlb_valid (tlb_set_rw vpn rw e) = tlb_valid e.
Proof. unfold tlb_set_rw. by destruct (_ && _). Qed.

Lemma tlb_set_pfn_same vpn pfn e :
  tlb_vpn (tlb_set_pfn vpn pfn e) = tlb_vpn e
  ∧ tlb_valid (tlb_set_pfn vpn pfn e) = tlb_valid e.
Proof. unfold tlb_set_pfn. by destruct (_ && _). Qed.

Lemma tlb_unique_set_rw vpn rw t : tlb_unique t → tlb_unique (tlb_set_rw vpn rw <$> t).
Proof.
  apply tlb_unique_fmap; intros e.
  - apply tlb_set_rw_same.
  - by destruct (tlb_set_rw_same vpn rw e) as [_ ->].
Qed.

Lemma tlb_unique_set_pfn vpn pfn t : tlb_unique t → tlb_unique (tlb_set_pfn vpn pfn <$> t).
Proof.
  apply tlb_unique_fmap; intros e.
  - apply tlb_set_pfn_same.
  - by destruct (tlb_set_pfn_same vpn pfn e) as [_ ->].
Qed.

Lemma tlb_unique_exec o s s' :
  tlb_unique (tlb s) → exec o s = Some s' → tlb_unique (tlb s').
Proof.
  intros Huniq Hexec.
  destruct o as [vpn rw|vpn rw pfn|vpn rw|vpn|vpn rw|p]; simpl in Hexec.
  - by injection Hexec as <-.
  - apply insert_tlb_inv in Hexec as (k & old & Hold & -> & Holdvpn & Hfirst). simpl.
    intros i j ei ej Hi Hj Hvi Hvj Heq.
    apply list_lookup_insert_Some in Hi as [(<- & <- & _)|[Hni Hi]];
      apply list_lookup_insert_Some in Hj as [(<- & <- & _)|[Hnj Hj]].
    + done.
    + simpl in Heq. destruct (Hfirst j ej Hj Hvj (eq_sym Heq)) as [_ Hvold].
      apply (Huniq k j old ej); [done..|]. by rewrite Holdvpn.
    + simpl in Heq. destruct (Hfirst i ei Hi Hvi Heq) as [_ Hvold].
      apply (Huniq i k ei old); [done..|]. by rewrite Holdvpn.
    + by apply (Huniq i j ei ej).
  - destruct (alloc_page vpn rw s) as [[pfn s0]|] eqn:Ha; simpl in Hexec; [|done].
    injection Hexec as <-.
    apply alloc_page_inv in Ha as [(-> & _)|(f & pr & _ & _ & _ & _ & Hcase)]; [done|].
    by destruct Hcase as [[_ ->]|(a & d & _ & _ & _ & ->)].
  - apply free_page_inv in Hexec as (pr & a & d & e & c & _ & _ & _ & _ & _ & ->).
    simpl. apply tlb_unique_fmap; [| |done]; intros t; by destruct (_ && _).
  - destruct (handle_page_fault vpn rw s) as [[r s0]|] eqn:Hpf; simpl in Hexec; [|done].
    injection Hexec as <-.
    apply handle_page_fault_inv in Hpf
      as [->|(pr & a & d & e & c & P & t & mc & _ & _ & _ & _ & _ & _ & _ & _ & -> & Hcase)];
      [done|].
    simpl.
    destruct Hcase as [(_ & _ & _ & ->)|[(_ & f & _ & _ & _ & ->)|(_ & _ & _ & _ & ->)]].
    + by apply tlb_unique_set_rw.
    + by apply tlb_unique_set_rw, tlb_unique_set_pfn.
    + by apply tlb_unique_set_rw, tlb_unique_set_pfn.
  - apply switch_process_inv in Hexec as (-> & _).
    apply tlb_unique_fmap; [done| |done]. by intros e.
Qed.

(** X5: none of the six operations makes the TLB hold two valid entries
    for the same VPN: where it holds at most one before a call, it holds at
    most one after it. *)
Theorem exec_keeps_tlb_unique o s s' :
  exec o s = Some s' → tlb_unique (tlb s) → tlb_unique (tlb s').
Proof. intros Hexec Huniq. by eapply tlb_unique_exec. Qed.

(** X6: after [switch_process], whether it switched or forked, every
    lookup in the TLB is a miss. *)
Theorem switch_process_flushes p s s' vpn rw :
  switch_process p s = Some s' → lookup_tlb vpn rw s' = None.
Proof.
  intros Hsw. apply switch_process_inv in Hsw as (Htlb & _).
  unfold lookup_tlb. rewrite Htlb. apply lookup_tlb_from_miss.
  intros j e He. rewrite list_lookup_fmap in He.
  destruct (tlb s !! j) as [e0|]; simpl in He; [|done]. injection He as <-.
  unfold tlb_hit. simpl. apply andb_false_r.
Qed.

(** ** Further results: switching, allocating, freeing *)

Lemma find_process_snoc prs p ready a :
  find_process prs p ready = Some None →
  find_process prs p (ready ++ [a])
  = pr ← prs !! a; if pid pr =? p then Some (Some a) else Some None.
Proof.
  induction ready as [|pos ready IH]; simpl; [done|].
  destruct (prs !! pos) as [pr|]; simpl; [|done].
  destruct (pid pr =? p); [done|]. apply IH.
Qed.

(** X7: when the running process switches to a process of the ready list
    and that one switches back (no process of the ready list carrying the
    pid of the first), the first process runs again on the page tables,
    directories and reference counts it left. *)
Theorem switch_process_round_trip pb s b pra :
  find_process (procs s) pb (processes s) = Some (Some b) →
  procs s !! current s = Some pra →
  find_process (procs s) (pid pra) (processes s) = Some None →
  ∃ s1 s2,
    switch_process pb s = Some s1
    ∧ switch_process (pid pra) s1 = Some s2
    ∧ current s1 = b ∧ ptbr s1 = b
    ∧ current s2 = current s ∧ ptbr s2 = current s
    ∧ procs s2 = procs s ∧ dirs s2 = dirs s ∧ mapcounts s2 = mapcounts s.
Proof.
  intros Hb Hcur Ha.
  destruct (switch_process_found pb s b Hb) as [Hs1 _].
  eexists _, _. split; [exact Hs1|].
  assert (find_process (procs s) (pid pra) (processes s ++ [current s])
          = Some (Some (current s))) as Hback.
  { rewrite find_process_snoc by done. rewrite Hcur. simpl. by rewrite Z.eqb_refl. }
  split.
  - unfold switch_process. simpl. rewrite Hback. simpl. reflexivity.
  - simpl. by split_and!.
Qed.

(** X8: a page allocated and freed again gives its frame back: the
    reference counts are what they were, no valid TLB entry for the VPN is
    left, and the entry, where its directory is still there, is not
    valid. *)
Theorem alloc_free_round_trip vpn rw s f w :
  lowest_free (mapcounts s) f → walk s (ptbr s) vpn = Some w →
  ∃ s1 s2,
    alloc_page vpn rw s = Some (Z.of_nat f, s1)
    ∧ free_page vpn s1 = Some s2
    ∧ mapcounts s2 = mapcounts s
    ∧ (∀ i t, tlb s2 !! i = Some t → tlb_valid t = true → tlb_vpn t ≠ vpn)
    ∧ (∀ a e, walk s2 (ptbr s2) vpn = Some (Entry a e) → pte_valid e = false).
Proof.
  intros Hfree Hw.
  destruct (alloc_page_free_frame vpn rw s f w Hfree Hw)
    as (s1 & a & Hs1 & Hmc1 & Hptbr1 & Htlb1 & Hw1 & _).
  destruct Hfree as [Hf _]. pose proof (lookup_lt_Some _ _ _ Hf) as Hlt.
  destruct (free_page_mapped vpn s1 a (mk_pte true rw (Z.of_nat f) 0) 1 Hw1)
    as (s2 & Hs2 & Hmc2 & _ & Htlb2 & Hw2).
  { simpl. rewrite Nat2Z.id, Hmc1. by rewrite list_lookup_insert_eq. }
  exists s1, s2. split_and!; [done..| | |].
  - rewrite Hmc2, Hmc1. simpl. rewrite Nat2Z.id. change (wrap (1 - 1)) with 0.
    rewrite list_insert_insert_eq. by apply list_insert_id.
  - intros i t Ht Hv Hvpn. rewrite Htlb2, list_lookup_fmap in Ht.
    destruct (tlb s1 !! i) as [t0|]; simpl in Ht; [|done].
    change (wrap (1 - 1) =? 0) with true in Ht. rewrite andb_true_r in Ht.
    destruct (Z.eqb_spec (tlb_vpn t0) vpn) as [Heq|Hne]; injection Ht as <-; done.
  - intros a' e' Hw'. destruct Hw2 as [Hw2|[Hw2 _]]; rewrite Hw2 in Hw'; [|done].
    by injection Hw' as <- <-.
Qed.

(** X9: [free_page] takes exactly one reference from the frame the entry
    names, whether the entry is valid or not, with the wrap-around of an
    [unsigned int] at count 0; it changes no other count and no slot of any
    page table; a TLB entry for another VPN is kept, and so is every TLB
    entry when the count has not reached zero; when it has, no entry for
    the VPN is left valid. *)
Theorem free_page_releases_one vpn s a e c :
  walk s (ptbr s) vpn = Some (Entry a e) →
  mapcounts s !! Z.to_nat (pte_pfn e) = Some c →
  ∃ s', free_page vpn s = Some s'
    ∧ mapcounts s' !! Z.to_nat (pte_pfn e) = Some (wrap (c - 1))
    ∧ (∀ g, g ≠ Z.to_nat (pte_pfn e) → mapcounts s' !! g = mapcounts s !! g)
    ∧ procs s' = procs s
    ∧ (∀ i t, tlb s !! i = Some t → tlb_vpn t ≠ vpn ∨ wrap (c - 1) ≠ 0 →
         tlb s' !! i = Some t)
    ∧ (wrap (c - 1) = 0 →
         ∀ i t, tlb s' !! i = Some t → tlb_vpn t = vpn → tlb_valid t = false).
Proof.
  intros Hw Hc.
  destruct (free_page_mapped vpn s a e c Hw Hc) as (s' & Hs' & Hmc & Hprocs & Htlb & _).
  exists s'. split_and!; [done| | |done| |].
  - rewrite Hmc. apply list_lookup_insert_eq. by eapply lookup_lt_Some.
  - intros g Hg. rewrite Hmc. by apply list_lookup_insert_ne.
  - intros i t Ht Hkeep. rewrite Htlb, list_lookup_fmap, Ht. simpl.
    destruct Hkeep as [Hne|Hnz].
    + apply Z.eqb_neq in Hne. by rewrite Hne.
    + apply Z.eqb_neq in Hnz. by rewrite Hnz, andb_false_r.
  - intros Hz i t Ht Hvpn. rewrite Htlb, list_lookup_fmap in Ht.
    destruct (tlb s !! i) as [t0|]; simpl in Ht; [|done].
    rewrite Hz in Ht. simpl in Ht. rewrite andb_true_r in Ht.
    destruct (Z.eqb_spec (tlb_vpn t0) vpn) as [Heq|Hne]; injection Ht as <-; done.
Qed.

(** ** Further results: the fault handler *)

(** X10: in a page table that holds no directory twice,
    [handle_page_fault] for one VPN leaves the entry of every other VPN of
    the running process, and every TLB entry for another VPN, as it
    was. *)
Theorem handle_page_fault_other_vpn vpn rw s r s' v :
  handle_page_fault vpn rw s = Some (r, s') →
  dirs_separate s → 0 ≤ vpn → 0 ≤ v → v ≠ vpn →
  walk s' (ptbr s') v = walk s (ptbr s) v
  ∧ ∀ i t, tlb s !! i = Some t → tlb_vpn t = v → tlb s' !! i = Some t.
Proof.
  intros Hpf Hsep Hvpn Hv Hne.
  apply handle_page_fault_inv in Hpf
    as [->|(pr & a & d & e & c & P & t & mc & Hpr & Hslot & Hd & He & Hval & Hcow
            & Hc & -> & -> & Hcase)]; [done|].
  pose proof (deref_lt _ _ _ Hd) as Hlt_a.
  split.
  - unfold walk, cell. simpl. rewrite Hpr. simpl.
    destruct (pagetable pr !! vpn1 v) as [[a'|]|] eqn:Hslot'; simpl; [|done..].
    destruct (decide (a = a')) as [<-|Hna].
    + rewrite deref_insert_eq by done. rewrite Hd. simpl.
      rewrite list_lookup_insert_ne; [done|].
      intros Hj. apply Hne. apply vpn_split_inj; [done..| |done].
      by apply (Hsep (ptbr s) pr _ _ a).
    + by rewrite deref_insert_ne.
  - intros i t0 Ht0 Hvpn0.
    assert (tlb_valid t0 && (tlb_vpn t0 =? vpn) = false) as Hcond.
    { apply andb_false_iff. right. apply Z.eqb_neq. congruence. }
    simpl.
    destruct Hcase as [(_ & _ & _ & ->)|[(_ & f & _ & _ & _ & ->)|(_ & _ & _ & _ & ->)]];
      rewrite ?list_lookup_fmap, Ht0; simpl;
      unfold tlb_set_rw, tlb_set_pfn; by rewrite ?Hcond, ?Hcond.
Qed.

(** What the copy-on-write path did, for a call known to have taken it. *)
Lemma handle_page_fault_cow_inv vpn rw s a e r s' :
  walk s (ptbr s) vpn = Some (Entry a e) → pte_valid e = true →
  cow_fault e rw = true →
  handle_page_fault vpn rw s = Some (r, s') →
  ∃ pr d P t mc,
    procs s !! ptbr s = Some pr
    ∧ pagetable pr !! vpn1 vpn = Some (Some a)
    ∧ deref (dirs s) a = Some d
    ∧ d !! vpn2 vpn = Some e
    ∧ r = true
    ∧ s' = mk_state (processes s) (current s) (ptbr s) t mc (procs s)
             (<[a := Some (<[vpn2 vpn := mk_pte true (pte_private e) P 0]> d)]> (dirs s)).
Proof.
  intros Hw Hv Hcow Hpf.
  destruct (walk_Entry_inv _ _ _ _ _ Hw) as (pr & d & Hpr & Hslot & Hd & He).
  pose proof (deref_lt _ _ _ Hd) as Hlt_a.
  destruct e as [v rights p b]. simpl in Hv. subst v.
  unfold handle_page_fault in Hpf. rewrite Hpr in Hpf. simpl in Hpf.
  rewrite Hslot in Hpf. simpl in Hpf. rewrite Hd in Hpf. simpl in Hpf.
  rewrite He in Hpf. simpl in Hpf. rewrite Hcow in Hpf. simpl in Hpf.
  destruct (mapcounts s !! Z.to_nat p) as [c|] eqn:Hc; simpl in Hpf; [|done].
  destruct (1 <? c) eqn:Hgt.
  - set (ds1 := <[a := Some (<[vpn2 vpn := mk_pte true b p 0]> d)]> (dirs s)) in *.
    destruct (alloc_page vpn b _) as [[pfn s3]|] eqn:Halloc; simpl in Hpf; [|done].
    injection Hpf as <- <-.
    apply alloc_page_inv in Halloc as [(-> & -> & Hnone)|Hsome].
    + exists pr, d, p. by eexists _, _.
    + destruct Hsome as (f & pr' & Hf & Hf0 & -> & Hpr' & Hcase). simpl in *.
      rewrite Hpr in Hpr'. injection Hpr' as <-.
      destruct Hcase as [[Hno _]|(a' & d' & Ha' & Hd' & _ & ->)]; [congruence|].
      rewrite Hslot in Ha'. injection Ha' as <-.
      unfold ds1 in Hd'. rewrite deref_insert_eq in Hd' by done. injection Hd' as <-.
      exists pr, d, (Z.of_nat f). eexists _, _. split_and!; [done..|].
      simpl. unfold set_tlb. simpl. f_equal. unfold ds1.
      by rewrite list_insert_insert_eq, list_insert_insert_eq.
  - injection Hpf as <- <-. exists pr, d, p. by eexists _, _.
Qed.

(** X11: a copy-on-write fault for a single access right is resolved:
    [handle_page_fault] returns [true], the entry is valid, grants the
    requested right and has an empty backup, and a second call for the same
    fault returns [false] and changes nothing. *)
Theorem handle_page_fault_resolves vpn rw s a e k r s' :
  walk s (ptbr s) vpn = Some (Entry a e) → pte_valid e = true →
  cow_fault e rw = true → 0 ≤ k → rw = 2 ^ k →
  handle_page_fault vpn rw s = Some (r, s') →
  r = true
  ∧ (∃ e', walk s' (ptbr s') vpn = Some (Entry a e')
           ∧ pte_valid e' = true ∧ Z.land (pte_rw e') rw = rw ∧ pte_private e' = 0)
  ∧ handle_page_fault vpn rw s' = Some (false, s').
Proof.
  intros Hw Hv Hcow Hk Hrw Hpf.
  pose proof (cow_fault_backup_covers e rw k Hk Hrw Hcow) as Hcovers.
  destruct (handle_page_fault_cow_inv _ _ _ _ _ _ _ Hw Hv Hcow Hpf)
    as (pr & d & P & t & mc & Hpr & Hslot & Hd & He & -> & ->).
  pose proof (deref_lt _ _ _ Hd) as Hlt_a.
  pose proof (lookup_lt_Some _ _ _ He) as Hlt_j.
  assert (rw ≠ 0) as Hnz.
  { rewrite Hrw. apply Z.pow_nonzero; lia. }
  split; [done|]. split.
  - exists (mk_pte true (pte_private e) P 0). split_and!; [|done..].
    apply (cell_Entry_intro _ _ _ _ pr a
             (<[vpn2 vpn := mk_pte true (pte_private e) P 0]> d)); [done..| |].
    + simpl. by rewrite deref_insert_eq.
    + by rewrite list_lookup_insert_eq.
  - unfold handle_page_fault. simpl. rewrite Hpr. simpl. rewrite Hslot. simpl.
    rewrite deref_insert_eq by done. simpl.
    rewrite list_lookup_insert_eq by done. simpl.
    unfold cow_fault. simpl. rewrite Hcovers.
    apply Z.eqb_neq in Hnz. by rewrite Hnz.
Qed.

(** ** Further results: who holds a directory *)

Lemma switch_process_ptbr p s s' :
  switch_process p s = Some s' → ptbr s' = current s'.
Proof.
  unfold switch_process. intros Hsw.
  destruct (find_process _ _ _) as [found|]; simpl in Hsw; [|done].
  destruct (match found with Some n => Some (n, s) | None => fork p s end)
    as [[n s1]|]; simpl in Hsw; [|done].
  by injection Hsw as <-.
Qed.

Lemma owned_boot : owned boot.
Proof.
  split_and!; [done| |].
  - intros p pr i a Hp Hi. simpl in Hp.
    apply list_lookup_singleton_Some in Hp as [_ <-]. simpl in Hi.
    apply lookup_replicate in Hi as [? _]. done.
  - intros p q prp prq i j a Hp _ Hi. simpl in Hp.
    apply list_lookup_singleton_Some in Hp as [_ <-]. simpl in Hi.
    apply lookup_replicate in Hi as [? _]. done.
Qed.

Lemma owned_alloc_page vpn rw s pfn s' :
  owned s → alloc_page vpn rw s = Some (pfn, s') → owned s'.
Proof.
  intros (Hptbr & Halloc & Hpriv) Ha.
  apply alloc_page_inv in Ha as [(-> & _)|(f & pr & Hf & Hf0 & -> & Hpr & Hcase)]; [done|].
  destruct Hcase as [[Hno ->]|(a & d & Hslot & Hd & _ & ->)].
  - set (n := length (dirs s)).
    assert (∀ q prq j a, procs s !! q = Some prq → pagetable prq !! j = Some (Some a) →
              a ≠ n) as Hold.
    { intros q prq j a Hq Hj ->. specialize (Halloc _ _ _ _ Hq Hj). unfold n in Halloc. lia. }
    split_and!; [done| |].
    + intros q pr0 i a Hq Hi. simpl in Hq |- *.
      rewrite length_insert, length_app. simpl. fold n.
      apply list_lookup_insert_Some in Hq as [(_ & <- & _)|[_ Hq]].
      * simpl in Hi. apply list_lookup_insert_Some in Hi as [(_ & Heq & _)|[_ Hi]].
        -- injection Heq as <-. lia.
        -- specialize (Halloc _ _ _ _ Hpr Hi). unfold n. lia.
      * specialize (Halloc _ _ _ _ Hq Hi). unfold n. lia.
    + intros p q prp prq i j a Hp Hq Hi Hj. simpl in Hp, Hq.
      apply list_lookup_insert_Some in Hp as [(<- & <- & _)|[Hnp Hp]];
        apply list_lookup_insert_Some in Hq as [(<- & <- & _)|[Hnq Hq]]; simpl in *.
      * apply list_lookup_insert_Some in Hi as [(<- & Hi & _)|[_ Hi]];
          apply list_lookup_insert_Some in Hj as [(<- & Hj & _)|[_ Hj]].
        -- done.
        -- injection Hi as <-. by destruct (Hold _ _ _ _ Hpr Hj).
        -- injection Hj as <-. by destruct (Hold _ _ _ _ Hpr Hi).
        -- by apply (Hpriv (ptbr s) (ptbr s) pr pr i j a).
      * apply list_lookup_insert_Some in Hi as [(<- & Hi & _)|[_ Hi]].
        -- injection Hi as <-. by destruct (Hold _ _ _ _ Hq Hj).
        -- by apply (Hpriv (ptbr s) q pr prq i j a).
      * apply list_lookup_insert_Some in Hj as [(<- & Hj & _)|[_ Hj]].
        -- injection Hj as <-. by destruct (Hold _ _ _ _ Hp Hi).
        -- by apply (Hpriv p (ptbr s) prp pr i j a).
      * by apply (Hpriv p q prp prq i j a).
  - split_and!; [done| |done].
    intros q pr0 i a0 Hq Hi. simpl. rewrite length_insert. by eapply Halloc.
Qed.

Lemma owned_exec o s s' : owned s → exec o s = Some s' → owned s'.
Proof.
  intros Hown Hexec.
  destruct o as [vpn rw|vpn rw pfn|vpn rw|vpn|vpn rw|p]; simpl in Hexec.
  - by injection Hexec as <-.
  - apply insert_tlb_inv in Hexec as (k & old & _ & -> & _). exact Hown.
  - destruct (alloc_page vpn rw s) as [[pfn s0]|] eqn:Ha; simpl in Hexec; [|done].
    injection Hexec as <-. by eapply owned_alloc_page.
  - destruct Hown as (Hptbr & Halloc & Hpriv).
    apply free_page_inv in Hexec as (pr & a & d & e & c & _ & _ & _ & _ & _ & ->).
    split_and!; [done| |done].
    intros q pr0 i a0 Hq Hi. simpl. rewrite length_insert. by eapply Halloc.
  - destruct (handle_page_fault vpn rw s) as [[r s0]|] eqn:Hpf; simpl in Hexec; [|done].
    injection Hexec as <-. destruct Hown as (Hptbr & Halloc & Hpriv).
    apply handle_page_fault_inv in Hpf
      as [->|(pr & a & d & e & c & P & t & mc & _ & _ & _ & _ & _ & _ & _ & _ & -> & _)];
      [done|].
    split_and!; [done| |done].
    intros q pr0 i a0 Hq Hi. simpl. rewrite length_insert. by eapply Halloc.
  - destruct Hown as (Hptbr & Halloc & Hpriv).
    pose proof (switch_process_ptbr _ _ _ Hexec) as Hptbr'.
    apply switch_process_inv in Hexec as (_ & _ & Hcase).
    destruct Hcase as [[Hp Hd]|(cur & child & Hcur & Hcopy & Hp)].
    + split_and!; [done| |].
      * intros q pr i a. rewrite Hp, Hd. apply Halloc.
      * intros p0 q prp prq i j a. rewrite Hp. apply Hpriv.
    + destruct (copy_pagetable_shape _ _ _ _ Hcopy) as (Hlen & _ & _ & Hfresh & Hinj).
      split_and!; [done| |].
      * intros q pr i a Hq Hi. rewrite Hp in Hq.
        apply lookup_app_Some in Hq as [Hq|[_ Hq]].
        -- specialize (Halloc q pr i a Hq Hi). lia.
        -- apply list_lookup_singleton_Some in Hq as [_ <-]. simpl in Hi.
           by destruct (Hfresh i a Hi).
      * intros p0 q prp prq i j a Hp0 Hq Hi Hj. rewrite Hp in Hp0, Hq.
        apply lookup_app_Some in Hp0 as [Hp0|[Hlp Hp0]];
          apply lookup_app_Some in Hq as [Hq|[Hlq Hq]].
        -- by apply (Hpriv p0 q prp prq i j a).
        -- apply list_lookup_singleton_Some in Hq as [_ <-]. simpl in Hj.
           specialize (Halloc _ _ _ _ Hp0 Hi). destruct (Hfresh j a Hj). lia.
        -- apply list_lookup_singleton_Some in Hp0 as [_ <-]. simpl in Hi.
           specialize (Halloc _ _ _ _ Hq Hj). destruct (Hfresh i a Hi). lia.
        -- apply list_lookup_singleton_Some in Hp0 as [Hp0 <-].
           apply list_lookup_singleton_Some in Hq as [Hq0 <-]. simpl in Hi, Hj.
           split; [lia|]. by apply (Hinj i j a).
Qed.

(** X12: every operation keeps [ptbr] on the page table of the running
    process, every directory pointer on a block handed out by [malloc], and
    every directory block in one slot of one page table: page tables share
    frames, never directories. *)
Theorem exec_keeps_directories_private o s s' :
  exec o s = Some s' → owned s → owned s'.
Proof. intros Hexec Hown. by eapply owned_exec. Qed.
(** ** Further results: counting references *)

Lemma wrap_wrap_add x y : wrap (wrap x + y) = wrap (x + y).
Proof. unfold wrap. apply Zplus_mod_idemp_l. Qed.

Lemma wrap_wrap_sub x y : wrap (wrap x - y) = wrap (x - y).
Proof. unfold wrap. apply Zminus_mod_idemp_l. Qed.

Lemma wrap_range x : 0 ≤ wrap x < 2 ^ 32.
Proof. unfold wrap. apply Z.mod_pos_bound. done. Qed.

Lemma bump_wrap n x : bump n (wrap x) = wrap (x + Z.of_nat n).
Proof.
  revert x. induction n as [|n IH]; intros x.
  - simpl. unfold bump. simpl. f_equal. lia.
  - rewrite bump_succ, wrap_wrap_add, IH. f_equal. lia.
Qed.

Lemma refs_in_directory_cons f e d :
  refs_in_directory f (e :: d) = (entry_ref f e + refs_in_directory f d)%nat.
Proof. done. Qed.

Lemma entry_ref_invalid f e : pte_valid e = false → entry_ref f e = 0%nat.
Proof. intros Hv. unfold entry_ref. by rewrite Hv. Qed.

Lemma entry_ref_valid f e :
  pte_valid e = true →
  entry_ref f e = if decide (Z.to_nat (pte_pfn e) = f) then 1%nat else 0%nat.
Proof.
  intros Hv. unfold entry_ref. rewrite Hv. simpl.
  destruct (Nat.eqb_spec (Z.to_nat (pte_pfn e)) f); by case_decide.
Qed.

Lemma entry_ref_cow_protect f e : entry_ref f (cow_protect e) = entry_ref f e.
Proof. unfold entry_ref. by rewrite cow_protect_valid, cow_protect_pfn. Qed.

(** Rewriting one cell moves the count by the difference of the two
    entries. *)
Lemma refs_in_directory_insert f : ∀ (d : list pte) j e e',
  d !! j = Some e →
  (refs_in_directory f (<[j := e']> d) + entry_ref f e
   = refs_in_directory f d + entry_ref f e')%nat.
Proof.
  induction d as [|x d IH]; intros j e e' He; [done|].
  destruct j as [|j]; simpl in He.
  - injection He as ->. simpl insert. rewrite !refs_in_directory_cons. lia.
  - simpl insert. rewrite !refs_in_directory_cons. specialize (IH j e e' He). lia.
Qed.

Lemma refs_in_directory_all_invalid f (d : list pte) :
  forallb (λ e, negb (pte_valid e)) d = true → refs_in_directory f d = 0%nat.
Proof.
  induction d as [|x d IH]; [done|]. simpl forallb.
  intros Hall. apply andb_true_iff in Hall as [Hx Hd].
  rewrite refs_in_directory_cons, (IH Hd), entry_ref_invalid; [done|].
  by apply negb_true_iff.
Qed.

Lemma refs_in_directory_cow_protect f (d : list pte) :
  refs_in_directory f (cow_protect <$> d) = refs_in_directory f d.
Proof.
  induction d as [|x d IH]; [done|].
  rewrite fmap_cons, !refs_in_directory_cons, IH. by rewrite entry_ref_cow_protect.
Qed.

Lemma refs_in_directory_fresh f a : refs_in_directory f (fresh_directory a) = 0%nat.
Proof.
  unfold fresh_directory. induction (seq 0 NR_PTES_PER_PAGE) as [|j l IH]; [done|].
  rewrite fmap_cons, refs_in_directory_cons, IH. done.
Qed.

Lemma refs_in_pagetable_cons_Some f a slots ds :
  refs_in_pagetable f (Some a :: slots) ds
  = (block_refs f (deref ds a) + refs_in_pagetable f slots ds)%nat.
Proof. done. Qed.

(** The count of a page table depends on the store through the blocks its
    slots hold. *)
Lemma refs_in_pagetable_ext f slots ds ds' :
  (∀ i a, slots !! i = Some (Some a) → block_refs f (deref ds' a) = block_refs f (deref ds a)) →
  refs_in_pagetable f slots ds' = refs_in_pagetable f slots ds.
Proof.
  induction slots as [|[a|] slots IH]; intros Hsame; [done| |].
  - rewrite !refs_in_pagetable_cons_Some, (Hsame 0%nat a eq_refl), IH; [done|].
    intros i a' Hi. by apply (Hsame (S i)).
  - simpl. apply IH. intros i a' Hi. by apply (Hsame (S i)).
Qed.

Lemma refs_in_procs_ext f prs ds ds' :
  (∀ p pr i a, prs !! p = Some pr → pagetable pr !! i = Some (Some a) →
     block_refs f (deref ds' a) = block_refs f (deref ds a)) →
  refs_in_procs f prs ds' = refs_in_procs f prs ds.
Proof.
  induction prs as [|pr prs IH]; intros Hsame; [done|]. simpl.
  rewrite IH, (refs_in_pagetable_ext f (pagetable pr) ds ds'); [done| |].
  - intros i a Hi. by apply (Hsame 0%nat pr i a).
  - intros p pr' i a Hp Hi. by apply (Hsame (S p) pr' i a).
Qed.

(** The block at [a] is replaced, and [a] is held by slot [i0] only. *)
Lemma refs_in_pagetable_block f x a d : ∀ slots i0 ds,
  slots !! i0 = Some (Some a) →
  (∀ i, slots !! i = Some (Some a) → i = i0) →
  deref ds a = Some d →
  (refs_in_pagetable f slots (<[a := x]> ds) + refs_in_directory f d
   = refs_in_pagetable f slots ds + block_refs f x)%nat.
Proof.
  induction slots as [|slot slots IH]; intros i0 ds Hi0 Honly Hd; [done|].
  pose proof (deref_lt _ _ _ Hd) as Hlt.
  destruct i0 as [|i0]; simpl in Hi0.
  - injection Hi0 as ->. rewrite !refs_in_pagetable_cons_Some.
    rewrite deref_insert_eq by done. rewrite Hd.
    rewrite (refs_in_pagetable_ext f slots ds (<[a := x]> ds)).
    + unfold block_refs. simpl. lia.
    + intros i a' Hi. destruct (decide (a = a')) as [<-|Hne].
      * by specialize (Honly (S i) Hi).
      * by rewrite deref_insert_ne.
  - assert ((refs_in_pagetable f slots (<[a := x]> ds) + refs_in_directory f d
             = refs_in_pagetable f slots ds + block_refs f x)%nat) as Hrest.
    { apply (IH i0 ds Hi0); [|done].
      intros i Hi. specialize (Honly (S i) Hi). lia. }
    destruct slot as [b|].
    + rewrite !refs_in_pagetable_cons_Some.
      assert (a ≠ b) as Hne by (intros ->; by specialize (Honly 0%nat eq_refl)).
      rewrite deref_insert_ne by done. lia.
    + simpl. exact Hrest.
Qed.

Lemma refs_in_procs_block f x a d : ∀ prs p0 pr0 i0 ds,
  prs !! p0 = Some pr0 → pagetable pr0 !! i0 = Some (Some a) →
  (∀ q prq j, prs !! q = Some prq → pagetable prq !! j = Some (Some a) →
     q = p0 ∧ j = i0) →
  deref ds a = Some d →
  (refs_in_procs f prs (<[a := x]> ds) + refs_in_directory f d
   = refs_in_procs f prs ds + block_refs f x)%nat.
Proof.
  induction prs as [|pr prs IH]; intros p0 pr0 i0 ds Hp0 Hi0 Honly Hd; [done|].
  destruct p0 as [|p0]; simpl in Hp0.
  - injection Hp0 as ->. simpl.
    rewrite (refs_in_procs_ext f prs ds (<[a := x]> ds)).
    + assert ((refs_in_pagetable f (pagetable pr0) (<[a := x]> ds) + refs_in_directory f d
               = refs_in_pagetable f (pagetable pr0) ds + block_refs f x)%nat) as Hpt.
      { apply (refs_in_pagetable_block f x a d (pagetable pr0) i0 ds Hi0); [|done].
        intros i Hi. by destruct (Honly 0%nat pr0 i eq_refl Hi). }
      lia.
    + intros p pr i a' Hp Hi. destruct (decide (a = a')) as [<-|Hne].
      * by destruct (Honly (S p) pr i Hp Hi).
      * by rewrite deref_insert_ne.
  - simpl.
    rewrite (refs_in_pagetable_ext f (pagetable pr) ds (<[a := x]> ds)).
    + assert ((refs_in_procs f prs (<[a := x]> ds) + refs_in_directory f d
               = refs_in_procs f prs ds + block_refs f x)%nat) as Hrest.
      { apply (IH p0 pr0 i0 ds Hp0 Hi0); [|done].
        intros q prq j Hq Hj. destruct (Honly (S q) prq j Hq Hj) as [Heq ->].
        split; [lia|done]. }
      lia.
    + intros i a' Hi. destruct (decide (a = a')) as [<-|Hne].
      * by destruct (Honly 0%nat pr i eq_refl Hi).
      * by rewrite deref_insert_ne.
Qed.

Lemma refs_in_procs_app f prs pr ds :
  refs_in_procs f (prs ++ [pr]) ds
  = (refs_in_procs f prs ds + refs_in_pagetable f (pagetable pr) ds)%nat.
Proof.
  induction prs as [|pr0 prs IH]; simpl; [lia|]. rewrite IH. lia.
Qed.

(** A [NULL] slot receives the address of a block. *)
Lemma refs_in_pagetable_slot f n ds : ∀ slots i,
  slots !! i = Some None →
  refs_in_pagetable f (<[i := Some n]> slots) ds
  = (refs_in_pagetable f slots ds + block_refs f (deref ds n))%nat.
Proof.
  induction slots as [|slot slots IH]; intros i Hi; [done|].
  destruct i as [|i]; simpl in Hi.
  - injection Hi as ->. simpl insert. rewrite refs_in_pagetable_cons_Some. simpl. lia.
  - simpl insert. destruct slot as [b|].
    + rewrite !refs_in_pagetable_cons_Some, IH by done. lia.
    + simpl. by apply IH.
Qed.

Lemma refs_in_procs_insert f ds pr' : ∀ prs p pr,
  prs !! p = Some pr →
  (refs_in_procs f (<[p := pr']> prs) ds + refs_in_pagetable f (pagetable pr) ds
   = refs_in_procs f prs ds + refs_in_pagetable f (pagetable pr') ds)%nat.
Proof.
  induction prs as [|pr0 prs IH]; intros p pr Hp; [done|].
  destruct p as [|p]; simpl in Hp.
  - injection Hp as ->. simpl. lia.
  - simpl. specialize (IH p pr Hp). lia.
Qed.

(** ** Further results: the counts follow the references *)

Lemma count_up (mc : list Z) f0 (R R' : nat → nat) :
  mc !! f0 = Some 0 →
  (∀ f c, mc !! f = Some c → c = wrap (Z.of_nat (R f))) →
  (∀ f, R' f = (R f + if decide (f0 = f) then 1 else 0)%nat) →
  ∀ f c, <[f0 := 1]> mc !! f = Some c → c = wrap (Z.of_nat (R' f)).
Proof.
  intros Hf0 Hcons Hdelta f c Hc. rewrite Hdelta.
  apply list_lookup_insert_Some in Hc as [(<- & <- & _)|[Hne Hc]].
  - rewrite decide_True by done. specialize (Hcons f0 0 Hf0).
    rewrite Nat2Z.inj_add, <- wrap_wrap_add, <- Hcons. done.
  - rewrite decide_False by done. rewrite Nat.add_0_r. by apply Hcons.
Qed.

Lemma count_down (mc : list Z) g c0 (R R' : nat → nat) :
  mc !! g = Some c0 →
  (∀ f c, mc !! f = Some c → c = wrap (Z.of_nat (R f))) →
  (∀ f, (R' f + if decide (g = f) then 1 else 0)%nat = R f) →
  ∀ f c, <[g := wrap (c0 - 1)]> mc !! f = Some c → c = wrap (Z.of_nat (R' f)).
Proof.
  intros Hg Hcons Hdelta f c Hc.
  apply list_lookup_insert_Some in Hc as [(<- & <- & _)|[Hne Hc]].
  - specialize (Hdelta g). rewrite decide_True in Hdelta by done.
    rewrite (Hcons g c0 Hg), wrap_wrap_sub. f_equal. lia.
  - specialize (Hdelta f). rewrite decide_False in Hdelta by done.
    rewrite Nat.add_0_r in Hdelta. rewrite Hdelta. by apply Hcons.
Qed.

Lemma entry_ref_new f f0 rw :
  entry_ref f (mk_pte true rw (Z.of_nat f0) 0) = if decide (f0 = f) then 1%nat else 0%nat.
Proof. rewrite entry_ref_valid by done. simpl. by rewrite Nat2Z.id. Qed.

Lemma conserved_alloc_page vpn rw s pfn s' :
  owned s → conserved s → unmapped s vpn →
  alloc_page vpn rw s = Some (pfn, s') → conserved s'.
Proof.
  intros (Hptbr & Halloc & Hpriv) Hcons Hun Ha.
  apply alloc_page_inv in Ha as [(-> & _)|(f0 & pr & Hf & Hf0 & -> & Hpr & Hcase)]; [done|].
  destruct Hcase as [[Hno ->]|(a & d & Hslot & Hd & [e He] & ->)].
  - set (n := length (dirs s)).
    set (new := mk_pte true rw (Z.of_nat f0) 0).
    set (dnew := <[vpn2 vpn := new]> (fresh_directory n)).
    set (ds' := <[n := Some dnew]> (dirs s ++ [Some (fresh_directory n)])).
    set (pr' := mk_process (pid pr) (<[vpn1 vpn := Some n]> (pagetable pr))).
    unfold conserved, frame_refs. simpl. fold n new dnew ds' pr'.
    apply (count_up _ f0 (λ f, frame_refs f s)); [done|exact Hcons|].
    intros f. unfold frame_refs.
    assert (deref ds' n = Some dnew) as Hdn.
    { unfold ds'. apply deref_insert_eq. rewrite length_app. simpl. unfold n. lia. }
    assert (refs_in_procs f (procs s) ds' = refs_in_procs f (procs s) (dirs s)) as Hsame.
    { apply refs_in_procs_ext. intros p pr0 i a Hp Hi.
      specialize (Halloc _ _ _ _ Hp Hi). unfold ds'.
      rewrite deref_insert_ne by (unfold n; lia). by rewrite deref_app_l. }
    assert (refs_in_directory f dnew = entry_ref f new) as Hnew.
    { destruct (lookup_lt_is_Some_2 (fresh_directory n) (vpn2 vpn)) as [e0 He0].
      { rewrite fresh_directory_length. apply vpn2_lt. }
      pose proof (refs_in_directory_insert f _ _ _ new He0) as Hins. fold dnew in Hins.
      rewrite refs_in_directory_fresh in Hins.
      rewrite (entry_ref_invalid f e0) in Hins by (by eapply fresh_directory_invalid).
      lia. }
    pose proof (refs_in_procs_insert f ds' pr' (procs s) (ptbr s) pr Hpr) as Hins.
    pose proof (refs_in_pagetable_slot f n ds' (pagetable pr) (vpn1 vpn) Hno) as Hsl.
    change (pagetable pr') with (<[vpn1 vpn := Some n]> (pagetable pr)) in Hins.
    rewrite Hsl, Hdn, Hsame in Hins. unfold block_refs in Hins. simpl in Hins.
    rewrite Hnew in Hins. unfold new in Hins. rewrite entry_ref_new in Hins. lia.
  - assert (pte_valid e = false) as Hinvalid.
    { destruct Hun as [Hw|(a0 & e0 & Hw & Hv0)].
      - apply cell_Absent_inv in Hw as (pr0 & Hpr0 & Hslot0). congruence.
      - destruct (walk_Entry_inv _ _ _ _ _ Hw) as (pr0 & d0 & Hpr0 & Hslot0 & Hd0 & He0).
        congruence. }
    set (new := mk_pte true rw (Z.of_nat f0) 0).
    unfold conserved, frame_refs. simpl. fold new.
    apply (count_up _ f0 (λ f, frame_refs f s)); [done|exact Hcons|].
    intros f. unfold frame_refs.
    assert ((refs_in_procs f (procs s) (<[a := Some (<[vpn2 vpn := new]> d)]> (dirs s))
             + refs_in_directory f d
             = refs_in_procs f (procs s) (dirs s)
               + refs_in_directory f (<[vpn2 vpn := new]> d))%nat) as Hblock.
    { apply (refs_in_procs_block f (Some (<[vpn2 vpn := new]> d)) a d (procs s)
               (ptbr s) pr (vpn1 vpn) (dirs s) Hpr Hslot); [|done].
      intros q prq j Hq Hj. by apply (Hpriv q (ptbr s) prq pr j (vpn1 vpn) a). }
    pose proof (refs_in_directory_insert f d (vpn2 vpn) e new He) as Hins.
    rewrite (entry_ref_invalid f e Hinvalid) in Hins.
    unfold new in Hins at 2. rewrite entry_ref_new in Hins. lia.
Qed.

Lemma conserved_free_page vpn s s' :
  owned s → conserved s →
  (∃ a e, walk s (ptbr s) vpn = Some (Entry a e) ∧ pte_valid e = true) →
  free_page vpn s = Some s' → conserved s'.
Proof.
  intros (Hptbr & Halloc & Hpriv) Hcons (a0 & e0 & Hw & Hv0) Hfree.
  apply free_page_inv in Hfree as (pr & a & d & e & c & Hpr & Hslot & Hd & He & Hc & ->).
  destruct (walk_Entry_inv _ _ _ _ _ Hw) as (pr0 & d0 & Hpr0 & Hslot0 & Hd0 & He0).
  rewrite Hpr in Hpr0. injection Hpr0 as <-.
  rewrite Hslot in Hslot0. injection Hslot0 as <-.
  rewrite Hd in Hd0. injection Hd0 as <-.
  rewrite He in He0. injection He0 as <-.
  set (gone := mk_pte false (pte_rw e) (pte_pfn e) (pte_private e)).
  set (d' := <[vpn2 vpn := gone]> d).
  set (x := if forallb (λ e, negb (pte_valid e)) d' then None else Some d').
  unfold conserved, frame_refs. simpl. fold gone d' x.
  apply (count_down _ (Z.to_nat (pte_pfn e)) c (λ f, frame_refs f s)); [done|exact Hcons|].
  intros f. unfold frame_refs.
  assert ((refs_in_procs f (procs s) (<[a := x]> (dirs s)) + refs_in_directory f d
           = refs_in_procs f (procs s) (dirs s) + block_refs f x)%nat) as Hblock.
  { apply (refs_in_procs_block f x a d (procs s) (ptbr s) pr (vpn1 vpn) (dirs s) Hpr Hslot);
      [|done].
    intros q prq j Hq Hj. by apply (Hpriv q (ptbr s) prq pr j (vpn1 vpn) a). }
  assert (block_refs f x = refs_in_directory f d') as Hx.
  { unfold x. destruct (forallb _ d') eqn:Hall; [|done].
    unfold block_refs. simpl. by rewrite refs_in_directory_all_invalid. }
  pose proof (refs_in_directory_insert f d (vpn2 vpn) e gone He) as Hins. fold d' in Hins.
  rewrite (entry_ref_invalid f gone) in Hins by done.
  rewrite (entry_ref_valid f e Hv0) in Hins. lia.
Qed.

Lemma conserved_handle_page_fault vpn rw s r s' :
  owned s → conserved s →
  (∀ a e c, walk s (ptbr s) vpn = Some (Entry a e) → pte_valid e = true →
            cow_fault e rw = true →
            mapcounts s !! Z.to_nat (pte_pfn e) = Some c → 1 < c →
            ∃ f, mapcounts s !! f = Some 0) →
  handle_page_fault vpn rw s = Some (r, s') → conserved s'.
Proof.
  intros (Hptbr & Halloc & Hpriv) Hcons Hroom Hpf.
  apply handle_page_fault_inv in Hpf
    as [->|(pr & a & d & e & c & P & t & mc & Hpr & Hslot & Hd & He & Hv & Hfault & Hc
            & _ & -> & Hcase)]; [done|].
  set (g := Z.to_nat (pte_pfn e)) in *.
  set (new := mk_pte true (pte_private e) P 0).
  assert (∀ f, (refs_in_procs f (procs s) (<[a := Some (<[vpn2 vpn := new]> d)]> (dirs s))
                + entry_ref f e
                = refs_in_procs f (procs s) (dirs s) + entry_ref f new)%nat) as Hmove.
  { intros f.
    assert ((refs_in_procs f (procs s) (<[a := Some (<[vpn2 vpn := new]> d)]> (dirs s))
             + refs_in_directory f d
             = refs_in_procs f (procs s) (dirs s)
               + refs_in_directory f (<[vpn2 vpn := new]> d))%nat) as Hblock.
    { apply (refs_in_procs_block f (Some (<[vpn2 vpn := new]> d)) a d (procs s)
               (ptbr s) pr (vpn1 vpn) (dirs s) Hpr Hslot); [|done].
      intros q prq j Hq Hj. by apply (Hpriv q (ptbr s) prq pr j (vpn1 vpn) a). }
    pose proof (refs_in_directory_insert f d (vpn2 vpn) e new He) as Hins. lia. }
  assert (walk s (ptbr s) vpn = Some (Entry a e)) as Hw.
  { by apply (cell_Entry_intro _ _ _ _ pr a d). }
  unfold conserved, frame_refs. simpl. fold new.
  destruct Hcase as [(Hle & -> & -> & _)|[(Hlt & f0 & Hf0 & -> & -> & _)|(Hlt & Hnone & _)]].
  - intros f c' Hc'. rewrite (Hcons f c' Hc'). unfold frame_refs. do 2 f_equal.
    specialize (Hmove f).
    assert (entry_ref f new = entry_ref f e) as Heq.
    { unfold entry_ref. simpl. by rewrite Hv. }
    lia.
  - apply first_index_Some in Hf0 as (z & Hz & Hz0 & _).
    apply Z.eqb_eq in Hz0 as ->.
    pose proof (wrap_range (Z.of_nat (frame_refs g s))) as Hrange.
    pose proof (Hcons g c Hc) as Hcg.
    assert (wrap (c - 1) = c - 1) as Hwrap.
    { unfold wrap. apply Z.mod_small. lia. }
    assert (g ≠ f0) as Hne.
    { intros <-. rewrite list_lookup_insert_eq in Hz by (by eapply lookup_lt_Some).
      injection Hz as Hz. lia. }
    rewrite list_lookup_insert_ne in Hz by done.
    assert (∀ f, entry_ref f new = if decide (f0 = f) then 1%nat else 0%nat) as Hnew.
    { intros f. apply entry_ref_new. }
    assert (∀ f, entry_ref f e = if decide (g = f) then 1%nat else 0%nat) as Hold.
    { intros f. by apply entry_ref_valid. }
    pose proof (Hmove g) as Hmg.
    rewrite Hnew, Hold, decide_True, decide_False in Hmg by done.
    apply (count_up _ f0 (λ f, frame_refs f s - if decide (g = f) then 1 else 0)%nat).
    + by rewrite list_lookup_insert_ne.
    + apply (count_down _ g c (λ f, frame_refs f s)); [done|exact Hcons|].
      intros f. case_decide as Hgf; [|lia]. subst f. unfold frame_refs. lia.
    + intros f. specialize (Hmove f). rewrite Hnew, Hold in Hmove.
      unfold frame_refs.
      destruct (decide (g = f)) as [Hgf|Hgf]; destruct (decide (f0 = f)) as [Hff|Hff];
        [congruence|subst f; lia|lia|lia].
  - destruct (Hroom a e c Hw Hv Hfault Hc Hlt) as [f Hf].
    apply (first_index_not_None _ f) in Hnone; [done|].
    rewrite list_lookup_insert_ne; [done|].
    intros Heq. fold g in Hc. rewrite Heq in Hc. rewrite Hc in Hf. injection Hf as ->. lia.
Qed.

Lemma block_refs_protect_store f ds a d x :
  deref ds a = Some d → (x < length ds)%nat →
  block_refs f (deref (<[a := Some (cow_protect <$> d)]> ds ++ [Some (cow_protect <$> d)]) x)
  = block_refs f (deref ds x).
Proof.
  intros Hd Hx. rewrite deref_app_l by (by rewrite length_insert).
  destruct (decide (a = x)) as [<-|Hne].
  - rewrite deref_insert_eq by done. rewrite Hd. unfold block_refs. simpl.
    apply refs_in_directory_cow_protect.
  - by rewrite deref_insert_ne.
Qed.

(** The copy of a page table maps what the original maps, and the
    write protection of the original changes no reference. *)
Lemma copy_pagetable_refs f slots : ∀ ds child ds',
  copy_pagetable slots ds = Some (child, ds') →
  (∀ i a, slots !! i = Some (Some a) → (a < length ds)%nat) →
  (∀ x, (x < length ds)%nat → block_refs f (deref ds' x) = block_refs f (deref ds x))
  ∧ refs_in_pagetable f child ds' = refs_in_pagetable f slots ds.
Proof.
  induction slots as [|[a|] slots IH]; intros ds child ds' Hcopy Hbound; simpl in Hcopy.
  - by injection Hcopy as <- <-.
  - destruct (deref ds a) as [d|] eqn:Hd; simpl in Hcopy; [|done].
    set (d' := cow_protect <$> d) in *.
    set (ds1 := <[a := Some d']> ds ++ [Some d']) in *.
    destruct (copy_pagetable slots ds1) as [[child1 ds2]|] eqn:Hrec; simpl in Hcopy; [|done].
    injection Hcopy as <- <-.
    assert (length ds1 = S (length ds)) as Hlen.
    { unfold ds1. rewrite length_app, length_insert. simpl. lia. }
    assert (deref ds1 (length ds) = Some d') as Hlast.
    { unfold deref, ds1. rewrite lookup_app_r by (by rewrite length_insert).
      by rewrite length_insert, Nat.sub_diag. }
    destruct (IH ds1 child1 ds2 Hrec) as [Hblocks Hrefs].
    { intros i a' Hi. specialize (Hbound (S i) a' Hi). lia. }
    split.
    + intros x Hx. rewrite Hblocks by lia. by apply block_refs_protect_store.
    + rewrite !refs_in_pagetable_cons_Some, Hrefs, Hblocks by lia.
      rewrite (refs_in_pagetable_ext f slots ds ds1).
      * f_equal. rewrite Hlast, Hd. unfold block_refs. simpl.
        apply refs_in_directory_cow_protect.
      * intros i a' Hi. apply block_refs_protect_store; [done|].
        apply (Hbound (S i) a' Hi).
  - destruct (copy_pagetable slots ds) as [[child1 ds2]|] eqn:Hrec; simpl in Hcopy; [|done].
    injection Hcopy as <- <-.
    destruct (IH ds child1 ds2 Hrec) as [Hblocks Hrefs].
    { intros i a' Hi. apply (Hbound (S i) a' Hi). }
    by split.
Qed.

Lemma switch_process_fork_inv p s s' :
  switch_process p s = Some s' →
  (procs s' = procs s ∧ dirs s' = dirs s ∧ mapcounts s' = mapcounts s)
  ∨ ∃ cur child,
      procs s !! current s = Some cur
      ∧ copy_pagetable (pagetable cur) (dirs s) = Some (child, dirs s')
      ∧ procs s' = procs s ++ [mk_process p child]
      ∧ count_pagetable child (dirs s') (mapcounts s) = Some (mapcounts s').
Proof.
  unfold switch_process. intros Hsw.
  destruct (find_process _ _ _) as [[n|]|]; simpl in Hsw; [| |done].
  - injection Hsw as <-. by left.
  - unfold fork in Hsw.
    destruct (procs s !! current s) as [cur|] eqn:Hcur; simpl in Hsw; [|done].
    destruct (copy_pagetable _ _) as [[child ds]|] eqn:Hcopy; simpl in Hsw; [|done].
    destruct (count_pagetable _ _ _) as [mc|] eqn:Hmc; simpl in Hsw; [|done].
    injection Hsw as <-. right. by exists cur, child.
Qed.

Lemma conserved_switch_process p s s' :
  owned s → conserved s → switch_process p s = Some s' → conserved s'.
Proof.
  intros (Hptbr & Halloc & Hpriv) Hcons Hsw.
  apply switch_process_fork_inv in Hsw
    as [(Hp & Hd & Hm)|(cur & child & Hcur & Hcopy & Hp & Hcount)].
  - unfold conserved, frame_refs. rewrite Hp, Hd, Hm. exact Hcons.
  - intros f c' Hc'. unfold frame_refs. rewrite Hp, refs_in_procs_app. simpl.
    destruct (copy_pagetable_refs f _ _ _ _ Hcopy) as [Hblocks Hrefs].
    { intros i a Hi. by apply (Halloc (current s) cur i a). }
    destruct (count_pagetable_spec _ _ _ _ Hcount) as [_ Hbump].
    rewrite Hbump in Hc'.
    destruct (mapcounts s !! f) as [c|] eqn:Hc; simpl in Hc'; [|done].
    injection Hc' as <-.
    rewrite (Hcons f c Hc), bump_wrap, Hrefs. unfold frame_refs.
    rewrite (refs_in_procs_ext f (procs s) (dirs s) (dirs s')).
    + f_equal. lia.
    + intros q pr i a Hq Hi. apply Hblocks. by apply (Halloc q pr i a).
Qed.

Lemma conserved_exec o s s' :
  exec o s = Some s' → permitted o s → owned s → conserved s → conserved s'.
Proof.
  intros Hexec Hperm Hown Hcons.
  destruct o as [vpn rw|vpn rw pfn|vpn rw|vpn|vpn rw|p]; simpl in Hexec, Hperm.
  - by injection Hexec as <-.
  - apply insert_tlb_inv in Hexec as (k & old & _ & -> & _). exact Hcons.
  - destruct (alloc_page vpn rw s) as [[pfn s0]|] eqn:Ha; simpl in Hexec; [|done].
    injection Hexec as <-. by eapply conserved_alloc_page.
  - destruct Hperm as (_ & a & e & Hw & Hv & _).
    eapply conserved_free_page; [done..| |done]. by exists a, e.
  - destruct (handle_page_fault vpn rw s) as [[r s0]|] eqn:Hpf; simpl in Hexec; [|done].
    injection Hexec as <-. destruct Hperm as (_ & _ & Hroom).
    by eapply conserved_handle_page_fault.
  - by eapply conserved_switch_process.
Qed.

(** X13: every permitted operation keeps the books of the frames: where
    each reference count is the number of valid entries, over the page
    tables of all processes, that map the frame (as far as an
    [unsigned int] holds it), and no directory is held twice, the same is
    true after the call. *)
Theorem exec_keeps_frame_conservation o s s' :
  exec o s = Some s' → permitted o s → owned s → conserved s → conserved s'.
Proof. apply conserved_exec. Qed.

(** ** Further results: what [alloc_page] leaves alone *)

(** X14: [alloc_page] never touches the TLB, and for every other VPN of
    the running process an entry that was there is there unchanged, and a
    VPN whose directory was missing is still not mapped. *)
Theorem alloc_page_other_vpn vpn rw s pfn s' v :
  alloc_page vpn rw s = Some (pfn, s') →
  dirs_separate s → 0 ≤ vpn → 0 ≤ v → v ≠ vpn →
  tlb s' = tlb s
  ∧ (∀ a e, walk s (ptbr s) v = Some (Entry a e) → walk s' (ptbr s') v = Some (Entry a e))
  ∧ (walk s (ptbr s) v = Some Absent → unmapped s' v).
Proof.
  intros Ha Hsep Hvpn Hv Hne.
  apply alloc_page_inv in Ha as [(-> & _)|(f & pr & Hf & Hf0 & -> & Hpr & Hcase)].
  { split_and!; [done|done|]. intros Hw. by left. }
  destruct Hcase as [[Hno ->]|(a & d & Hslot & Hd & [e He] & ->)].
  - set (n := length (dirs s)). split_and!; [done| |].
    + intros a e Hw.
      destruct (walk_Entry_inv _ _ _ _ _ Hw) as (pr0 & d & Hpr0 & Hslot & Hd & He).
      rewrite Hpr in Hpr0. injection Hpr0 as <-.
      pose proof (deref_lt _ _ _ Hd) as Hlt.
      apply (cell_Entry_intro _ _ _ _
               (mk_process (pid pr) (<[vpn1 vpn := Some n]> (pagetable pr))) a d); simpl.
      * apply list_lookup_insert_eq. by eapply lookup_lt_Some.
      * rewrite list_lookup_insert_ne; [done|]. intros Heq. congruence.
      * rewrite deref_insert_ne by (unfold n; lia). by rewrite deref_app_l.
      * done.
    + intros Hw. apply cell_Absent_inv in Hw as (pr0 & Hpr0 & Hslot).
      rewrite Hpr in Hpr0. injection Hpr0 as <-.
      destruct (decide (vpn1 v = vpn1 vpn)) as [Heq|Hneq].
      * assert (vpn2 v ≠ vpn2 vpn) as Hj.
        { intros Hj. apply Hne. by apply vpn_split_inj. }
        destruct (lookup_lt_is_Some_2 (fresh_directory n) (vpn2 v)) as [e0 He0].
        { rewrite fresh_directory_length. apply vpn2_lt. }
        right. exists n, e0. split; [|by eapply fresh_directory_invalid].
        apply (cell_Entry_intro _ _ _ _
                 (mk_process (pid pr) (<[vpn1 vpn := Some n]> (pagetable pr))) n
                 (<[vpn2 vpn := mk_pte true rw (Z.of_nat f) 0]> (fresh_directory n))); simpl.
        -- apply list_lookup_insert_eq. by eapply lookup_lt_Some.
        -- rewrite Heq. apply list_lookup_insert_eq. by eapply lookup_lt_Some.
        -- apply deref_insert_eq. rewrite length_app. simpl. unfold n. lia.
        -- by rewrite list_lookup_insert_ne.
      * left. unfold walk, cell. simpl.
        rewrite list_lookup_insert_eq by (by eapply lookup_lt_Some). simpl.
        rewrite list_lookup_insert_ne by done. by rewrite Hslot.
  - split_and!; [done| |].
    + intros a' e' Hw.
      by apply (walk_update_other s _ v vpn pr a d (mk_pte true rw (Z.of_nat f) 0) a' e').
    + intros Hw. left. apply cell_Absent_inv in Hw as (pr0 & Hpr0 & Hslot0).
      unfold walk, cell. simpl. rewrite Hpr0. simpl. by rewrite Hslot0.
Qed.
End VM.

(** ** Concrete runs on the small machine *)

Lemma demo_boot_is_boot : boot 1 4 4 = demo_boot.
Proof. reflexivity. Qed.

Lemma demo_forked_run : run 1 1 2 demo_junk demo_fork_calls demo_boot = Some demo_forked.
Proof. reflexivity. Qed.

Lemma demo_two_run : run 1 1 2 demo_junk [Switch_process 1] demo_boot = Some demo_two.
Proof. reflexivity. Qed.

Lemma demo_mapped0_run :
  run 1 1 2 demo_junk [Alloc_page 0 3; Insert_tlb 0 1 0] demo_boot = Some demo_mapped0.
Proof. reflexivity. Qed.

Lemma demo_readonly_run :
  run 1 1 2 demo_junk [Alloc_page 0 1] demo_boot = Some demo_readonly.
Proof. reflexivity. Qed.

Lemma demo_mapped01_run :
  run 1 1 2 demo_junk [Alloc_page 0 3; Alloc_page 1 3] demo_boot = Some demo_mapped01.
Proof. reflexivity. Qed.

(** C1: in [demo_mapped0] the only TLB entry for VPN 0 caches the rights
    [1], which do not contain the requested rights [2]; [lookup_tlb] still
    reports a hit on frame 0.  The request does not take part in the test:
    a cached entry with rights [2] is missed by a request for [2]. *)
Theorem lookup_tlb_hit_without_rights :
  tlb demo_mapped0 = demo_tlb_read0
  ∧ Z.land 1 2 ≠ 2
  ∧ lookup_tlb 0 2 demo_mapped0 = Some 0
  ∧ lookup_tlb 0 2 (set_tlb demo_mapped0 [mk_tlb true 0 2 0]) = None.
Proof. repeat split; done. Qed.



Lemma handle_page_fault_failure_preserves_state_witness :
  ∃ s', handle_page_fault 1 demo_junk 0 2 demo_readonly = Some (false, s')
        ∧ s' = demo_readonly.
Proof.
  exists demo_readonly. split; [reflexivity|].
  apply (handle_page_fault_failure_preserves_state 1 demo_junk 0 2). reflexivity.
Defined.




(** Two more runs of the copy-on-write path.  A request for both rights
    on an entry whose backup covers them is turned down, because the
    current rights share a bit with the request. *)
Lemma handle_page_fault_partial_rights :
  cell demo_forked 1 0 0 = Some (Entry 1 (mk_pte true 1 0 3))
  ∧ handle_page_fault 1 demo_junk 0 3 demo_forked = Some (false, demo_forked).
Proof. split; reflexivity. Qed.

(** With no free frame the [-1] that [alloc_page] returns becomes the frame
    of the TLB entry; the entry of the page table keeps frame 0, now
    writable, although the parent still maps it, and the count of frame 0
    has gone down. *)
Lemma handle_page_fault_no_frame :
  ∃ s, run 1 1 2 demo_junk demo_full_calls demo_boot = Some s
       ∧ tlb s !! 0%nat = Some (mk_tlb true 0 2 UINT_MAX)
       ∧ walk 1 s 1 0 = Some (Entry 2 (mk_pte true 3 0 0))
       ∧ walk 1 s 0 0 = Some (Entry 0 (mk_pte true 1 0 3))
       ∧ mapcounts s = [1; 2; 2; 2].
Proof. eexists. split_and!; vm_compute; reflexivity. Qed.

(** C5: in [demo_two] process 0 is in the ready list and process 1 runs.
    [switch_process 0] makes process 0 current and appends process 1, but
    process 0 is still in the ready list afterwards. *)
Theorem switch_process_keeps_next_linked :
  processes demo_two = [0%nat] ∧ current demo_two = 1%nat
  ∧ ∃ s', switch_process 1 2 0 demo_two = Some s'
          ∧ current s' = 0%nat ∧ ptbr s' = 0%nat
          ∧ processes s' = [0%nat; 1%nat].
Proof. split_and!; [done..|]. eexists. split_and!; reflexivity. Qed.

(** C7: in [demo_mapped0] VPN 0 is the only valid entry of its directory.
    [free_page 0] brings frame 0 to count 0 and frees the directory, but
    slot 0 of the page table still holds the pointer to the freed block:
    the next walk of that slot, by [alloc_page] or [handle_page_fault], is
    undefined. *)
Theorem free_page_leaves_dangling_slot :
  ∃ s', free_page 1 0 demo_mapped0 = Some s'
        ∧ mapcounts s' = [0; 0; 0; 0]
        ∧ dirs s' = [None]
        ∧ pagetable <$> procs s' !! 0%nat = Some [Some 0%nat; None]
        ∧ walk 1 s' (ptbr s') 0 = None
        ∧ alloc_page 1 demo_junk 0 3 s' = None
        ∧ handle_page_fault 1 demo_junk 0 2 s' = None.
Proof. eexists. split_and!; reflexivity. Qed.


Lemma handle_page_fault_frame_witness :
  ∃ s', handle_page_fault 1 demo_junk 0 2 demo_forked = Some (true, s')
        ∧ walk 1 s' 0 0 = Some (Entry 0 (mk_pte true 1 0 3)).
Proof.
  eexists. split; [reflexivity|].
  destruct (handle_page_fault_frame 1 demo_junk 0 2 demo_forked true _ 0%nat eq_refl)
    as [Hcell _].
  - intros pr po i j a Hpr Hpo Hi Hj. simpl in Hpr, Hpo.
    injection Hpr as <-. injection Hpo as <-.
    destruct i as [|[|i]]; simpl in Hi; [|done..]. injection Hi as <-.
    destruct j as [|[|j]]; simpl in Hj; done.
  - unfold walk. rewrite Hcell. reflexivity.
Defined.

Lemma demo_forked_permitted : permitted_run 1 1 2 demo_junk demo_fork_calls demo_boot.
Proof.
  eapply permitted_run_cons; [by left|vm_compute; reflexivity|].
  eapply permitted_run_cons; [right; by eexists _, _|vm_compute; reflexivity|].
  eapply permitted_run_cons; [done|vm_compute; reflexivity|].
  eapply permitted_run_cons; [done|vm_compute; reflexivity|done].
Defined.

Lemma demo_forked_reachable : reachable 1 4 4 1 2 demo_junk demo_forked.
Proof.
  apply (reachable_run 1 4 4 1 2 demo_junk demo_fork_calls demo_boot).
  - apply reachable_boot.
  - apply demo_forked_permitted.
  - reflexivity.
Defined.

Lemma demo_cow_reachable :
  ∃ s, run 1 1 2 demo_junk demo_cow_calls demo_boot = Some s
       ∧ mapcounts s = [1; 2; 0; 0]
       ∧ reachable 1 4 4 1 2 demo_junk s.
Proof.
  eexists. split_and!; [vm_compute; reflexivity..|].
  eapply (reachable_run 1 4 4 1 2 demo_junk demo_cow_calls demo_boot);
    [apply reachable_boot| |vm_compute; reflexivity].
  eapply permitted_run_cons; [by left|vm_compute; reflexivity|].
  eapply permitted_run_cons; [right; by eexists _, _|vm_compute; reflexivity|].
  eapply permitted_run_cons; [done|vm_compute; reflexivity|].
  eapply permitted_run_cons; [done|vm_compute; reflexivity|].
  eapply permitted_run_cons; [|vm_compute; reflexivity|].
  { split_and!; [done|by exists 1|]. intros a e c _ _ _ _ _. by exists 2%nat. }
  eapply permitted_run_cons; [done|vm_compute; reflexivity|].
  eapply permitted_run_cons; [|vm_compute; reflexivity|done].
  split; [done|]. eexists _, _. split_and!; [reflexivity..|]. by left.
Qed.

Lemma reachable_tlb_consistent_witness : tlb_consistent 1 demo_forked.
Proof.
  apply (reachable_tlb_consistent 1 4 4 1 2 demo_junk). apply demo_forked_reachable.
Defined.

(** Every call of [demo_free_calls] is one the simulator makes: two
    allocations, a fork, the caching of a translation that the page table
    grants, and the release of a mapped page.  The frame of that page is
    still mapped by the parent, so its TLB entry stays valid, while the
    page table of the running process no longer translates VPN 0. *)
Lemma reachable_tlb_consistent_counterexample :
  ∃ s, run 1 1 2 demo_junk demo_free_calls demo_boot = Some s
       ∧ tlb s !! 0%nat = Some (mk_tlb true 0 1 0)
       ∧ translate 1 0 1 s = None
       ∧ ¬ tlb_consistent 1 s.
Proof.
  eexists. split_and!; [vm_compute; reflexivity..|].
  intros Hcons.
  specialize (Hcons 0%nat (mk_tlb true 0 1 0) eq_refl eq_refl 1 eq_refl).
  vm_compute in Hcons. discriminate.
Qed.

(** ** The further results on the small machine *)

Lemma demo_tlb_read0_unique : tlb_unique demo_tlb_read0.
Proof.
  intros i j ei ej Hi Hj Hvi Hvj _.
  destruct i as [|[|[|[|i]]]]; simpl in Hi; try done; injection Hi as <-; try done.
  destruct j as [|[|[|[|j]]]]; simpl in Hj; try done; injection Hj as <-; done.
Qed.

Lemma demo_forked_separate : dirs_separate demo_forked.
Proof.
  intros p pr i j a Hp Hi Hj.
  destruct p as [|[|p]]; simpl in Hp; try done; injection Hp as <-;
    destruct i as [|[|i]]; simpl in Hi; try done;
    destruct j as [|[|j]]; simpl in Hj; done.
Qed.

Lemma demo_mapped0_separate : dirs_separate demo_mapped0.
Proof.
  intros p pr i j a Hp Hi Hj.
  destruct p as [|p]; simpl in Hp; try done; injection Hp as <-;
    destruct i as [|[|i]]; simpl in Hi; try done;
    destruct j as [|[|j]]; simpl in Hj; done.
Qed.

Lemma demo_forked_owned : owned demo_forked.
Proof.
  split_and!; [done| |].
  - intros p pr i a Hp Hi.
    destruct p as [|[|p]]; simpl in Hp; try done; injection Hp as <-;
      destruct i as [|[|i]]; simpl in Hi; try done; injection Hi as <-; simpl; lia.
  - intros p q prp prq i j a Hp Hq Hi Hj.
    destruct p as [|[|p]]; simpl in Hp; try done; injection Hp as <-;
      destruct q as [|[|q]]; simpl in Hq; try done; injection Hq as <-;
      destruct i as [|[|i]]; simpl in Hi; try done; injection Hi as <-;
      destruct j as [|[|j]]; simpl in Hj; done.
Qed.

Lemma demo_forked_conserved : conserved demo_forked.
Proof.
  intros f c Hc.
  destruct f as [|[|[|[|f]]]]; simpl in Hc; try done; injection Hc as <-;
    vm_compute; reflexivity.
Qed.

Lemma insert_tlb_lookup_witness :
  ∃ s', insert_tlb 1 1 1 demo_mapped0 = Some s' ∧ lookup_tlb 1 2 s' = Some 1.
Proof.
  eexists. split; [reflexivity|].
  destruct (insert_tlb_lookup 1 1 1 demo_mapped0 _ 2 eq_refl) as [Hhit _].
  apply Hhit. done.
Defined.

Lemma insert_tlb_other_vpn_witness :
  ∃ s', insert_tlb 1 1 1 demo_mapped0 = Some s'
        ∧ lookup_tlb 0 1 s' = lookup_tlb 0 1 demo_mapped0.
Proof.
  eexists. split; [reflexivity|].
  apply (insert_tlb_other_vpn 1 1 1 demo_mapped0 _ 0 1 eq_refl). done.
Defined.

Lemma exec_keeps_tlb_unique_witness :
  ∃ s', exec 1 1 2 demo_junk (Insert_tlb 1 1 1) demo_forked = Some s'
        ∧ tlb s' !! 1%nat = Some (mk_tlb true 1 1 1)
        ∧ tlb_unique (tlb s').
Proof.
  eexists. split_and!; [reflexivity..|].
  apply (exec_keeps_tlb_unique 1 1 2 demo_junk (Insert_tlb 1 1 1) demo_forked _ eq_refl).
  apply demo_tlb_read0_unique.
Defined.

Lemma switch_process_flushes_witness :
  ∃ s', switch_process 1 2 0 demo_forked = Some s'
        ∧ lookup_tlb 0 1 demo_forked = Some 0
        ∧ lookup_tlb 0 1 s' = None.
Proof.
  eexists. split_and!; [reflexivity..|].
  apply (switch_process_flushes 1 2 0 demo_forked _ 0 1 eq_refl).
Defined.

Lemma switch_process_round_trip_witness :
  ∃ s1 s2, switch_process 1 2 0 demo_forked = Some s1
           ∧ switch_process 1 2 1 s1 = Some s2
           ∧ current s1 = 0%nat
           ∧ current s2 = 1%nat
           ∧ mapcounts s2 = [2; 2; 0; 0].
Proof.
  destruct (switch_process_round_trip 1 2 0 demo_forked 0%nat
              (mk_process 1 [Some 1%nat; None]) eq_refl eq_refl eq_refl)
    as (s1 & s2 & Hs1 & Hs2 & Hc1 & _ & Hc2 & _ & _ & _ & Hmc).
  exists s1, s2. split_and!; done.
Defined.

Lemma alloc_free_round_trip_witness :
  ∃ s1 s2, alloc_page 1 demo_junk 1 3 demo_mapped0 = Some (1, s1)
           ∧ free_page 1 1 s1 = Some s2
           ∧ mapcounts s2 = [1; 0; 0; 0].
Proof.
  destruct (alloc_free_round_trip 1 demo_junk 1 3 demo_mapped0 1%nat
              (Entry 0 (mk_pte false 3 7 3)))
    as (s1 & s2 & Hs1 & Hs2 & Hmc & _).
  - split; [reflexivity|]. intros g Hg. assert (g = 0%nat) as -> by lia. done.
  - reflexivity.
  - by exists s1, s2.
Defined.

Lemma free_page_releases_one_witness :
  ∃ s', free_page 1 0 demo_forked = Some s'
        ∧ mapcounts s' !! 0%nat = Some 1
        ∧ procs s' = procs demo_forked.
Proof.
  destruct (free_page_releases_one 1 0 demo_forked 1%nat (mk_pte true 1 0 3) 2
              eq_refl eq_refl)
    as (s' & Hs' & Hc & _ & Hprocs & _).
  by exists s'.
Defined.

Lemma handle_page_fault_other_vpn_witness :
  ∃ s', handle_page_fault 1 demo_junk 0 2 demo_forked = Some (true, s')
        ∧ walk 1 s' (ptbr s') 1 = Some (Entry 1 (mk_pte true 1 1 3)).
Proof.
  eexists. split; [reflexivity|].
  destruct (handle_page_fault_other_vpn 1 demo_junk 0 2 demo_forked true _ 1 eq_refl)
    as [Hwalk _]; [apply demo_forked_separate|done..|].
  rewrite Hwalk. reflexivity.
Defined.

Lemma handle_page_fault_resolves_witness :
  ∃ s', handle_page_fault 1 demo_junk 0 2 demo_forked = Some (true, s')
        ∧ handle_page_fault 1 demo_junk 0 2 s' = Some (false, s').
Proof.
  eexists. split; [reflexivity|].
  by destruct (handle_page_fault_resolves 1 demo_junk 0 2 demo_forked 1%nat
                 (mk_pte true 1 0 3) 1 true _ eq_refl eq_refl eq_refl
                 (Z.le_0_1) eq_refl eq_refl)
    as (_ & _ & Hagain).
Defined.

Lemma exec_keeps_directories_private_witness :
  ∃ s', exec 1 1 2 demo_junk (Switch_process 2) demo_forked = Some s'
        ∧ length (procs s') = 3%nat
        ∧ owned s'.
Proof.
  eexists. split_and!; [vm_compute; reflexivity..|].
  apply (exec_keeps_directories_private 1 1 2 demo_junk (Switch_process 2) demo_forked);
    [vm_compute; reflexivity|apply demo_forked_owned].
Defined.

Lemma exec_keeps_frame_conservation_witness :
  ∃ s', exec 1 1 2 demo_junk (Handle_page_fault 0 2) demo_forked = Some s'
        ∧ mapcounts s' = [1; 2; 1; 0]
        ∧ conserved s'.
Proof.
  eexists. split_and!; [vm_compute; reflexivity..|].
  apply (exec_keeps_frame_conservation 1 1 2 demo_junk (Handle_page_fault 0 2) demo_forked);
    [vm_compute; reflexivity| |apply demo_forked_owned|apply demo_forked_conserved].
  split_and!; [done|by exists 1|]. intros a e c _ _ _ _ _. by exists 2%nat.
Defined.

Lemma alloc_page_other_vpn_witness :
  ∃ s', alloc_page 1 demo_junk 1 3 demo_mapped0 = Some (1, s')
        ∧ tlb s' = demo_tlb_read0
        ∧ walk 1 s' (ptbr s') 0 = Some (Entry 0 (mk_pte true 3 0 0)).
Proof.
  eexists. split; [reflexivity|].
  destruct (alloc_page_other_vpn 1 demo_junk 1 3 demo_mapped0 1 _ 0 eq_refl)
    as (Htlb & Hkept & _); [apply demo_mapped0_separate|done..|].
  split; [by rewrite Htlb|]. apply Hkept. reflexivity.
Defined.
